(** * package_scanner.py: a shallow embedding of [PackageScanner]

    The scanner walks directory trees, looks into every [node_modules]
    store for installed target packages and into every [package.json]
    for declared target dependencies.  The embedding follows
    [src/package_scanner.py] method by method:

    - Python dictionaries are [gmap]s, Python sets are [gset]s;
    - the file system is a finite tree of directories and files, a path
      is the list of its components below the anchor [/];
    - a file is described by what [open] followed by [json.load] does
      on it (the JSON parser itself is library code);
    - Python exceptions are values of [exn]; code that can raise lives
      in [result], and code that raises while it mutates a dictionary
      lives in the monad [M], whose state survives a raise exactly as a
      Python local survives until the handler runs. *)

From Stdlib Require Import String Ascii.
From stdpp Require Import gmap strings list fin_maps.

Open Scope string_scope.
Set Warnings "-register-all".

(** ** Python values and exceptions *)

(** What [json.load] can return.  Numbers are kept as written: no
    operation of the scanner looks inside one. *)
Inductive json : Type :=
| JNull
| JBool (b : bool)
| JNum (lexeme : string)
| JStr (s : string)
| JArr (items : list json)
| JObj (fields : gmap string json).

(** The exception classes that reach the scanner's handlers.
    [ValueError] stands for a [ValueError] of neither of its two
    subclasses [JSONDecodeError] and [UnicodeDecodeError], which are
    listed on their own. *)
Inductive exn : Type :=
| FileNotFoundError
| IsADirectoryError
| NotADirectoryError
| PermissionError
| JSONDecodeError
| UnicodeDecodeError
| AttributeError
| TypeError
| KeyError
| RecursionError
| ValueError.

(** [isinstance(e, OSError)]. *)
Definition is_OSError (e : exn) : bool :=
  match e with
  | FileNotFoundError | IsADirectoryError | NotADirectoryError
  | PermissionError => true
  | _ => false
  end.

(** [except (json.JSONDecodeError, PermissionError, OSError)]. *)
Definition caught_by_reader (e : exn) : bool :=
  match e with
  | JSONDecodeError => true
  | _ => is_OSError e
  end.

(** [except (PermissionError, OSError)]. *)
Definition caught_by_lister (e : exn) : bool := is_OSError e.

Inductive result (A : Type) : Type :=
| Ok (a : A)
| Raise (e : exn).
Arguments Ok {A} a.
Arguments Raise {A} e.

Definition rbind {A B} (r : result A) (k : A → result B) : result B :=
  match r with
  | Ok a => k a
  | Raise e => Raise e
  end.

(** [try: body  except <handled>: fallback]. *)
Definition try_except {A} (body : result A) (handled : exn → bool)
    (fallback : result A) : result A :=
  match body with
  | Ok a => Ok a
  | Raise e => if handled e then fallback else Raise e
  end.

(** ** Statements that mutate a local and may raise *)

Module Stmt.

(** A statement run on a state [S]: the state it leaves, and either
    its value or the exception on its way up. *)
Definition M (S A : Type) : Type := S → S * result A.

Definition ret {S A} (a : A) : M S A := λ s, (s, Ok a).

Definition bind {S A B} (m : M S A) (k : A → M S B) : M S B :=
  λ s, match m s with
       | (s', Ok a) => k a s'
       | (s', Raise e) => (s', Raise e)
       end.

Definition lift {S A} (r : result A) : M S A := λ s, (s, r).

Definition modify {S} (f : S → S) : M S unit := λ s, (f s, Ok tt).

Definition get {S} : M S S := λ s, (s, Ok s).

(** [try: body  except <handled>: handler] *)
Definition catch {S A} (body : M S A) (handled : exn → bool)
    (handler : M S A) : M S A :=
  λ s, match body s with
       | (s', Ok a) => (s', Ok a)
       | (s', Raise e) => if handled e then handler s' else (s', Raise e)
       end.

(** [for x in xs: body x] *)
Fixpoint for_each {S X} (body : X → M S unit) (xs : list X) : M S unit :=
  match xs with
  | [] => ret tt
  | x :: xs' => bind (body x) (λ _, for_each body xs')
  end.

End Stmt.

Declare Scope stmt_scope.
Delimit Scope stmt_scope with stmt.
Notation "'let!' x ':=' m 'in' k" := (Stmt.bind m (λ x, k))
  (at level 10, x name, m at level 100, k at level 200) : stmt_scope.
Notation "'do!' m 'in' k" := (Stmt.bind m (λ _, k))
  (at level 10, m at level 100, k at level 200) : stmt_scope.

(** ** Paths *)

(** A path is the list of its components below the anchor. *)
Abbreviation path := (list string).

(** [Path.parts]: the anchor counts as one part. *)
Definition parts (p : path) : list string := "/" :: p.

(** [Path.name]. *)
Definition name (p : path) : string := default "" (last p).

(** [Path.parent]. *)
Definition parent (p : path) : path := removelast p.

(** [p / child]. *)
Definition joinpath (p : path) (child : string) : path := p ++ [child].
Infix "//" := joinpath (at level 40, left associativity).

(** ** The file system *)

(** What [open(path, 'r', encoding='utf-8')] followed by [json.load]
    does on a regular file. *)
Inductive file_content : Type :=
| Denied                (* open raises PermissionError *)
| Undecodable           (* the bytes are not UTF-8: UnicodeDecodeError *)
| Malformed             (* the text is not JSON: JSONDecodeError *)
| TooDeep               (* JSON nested beyond the recursion limit:
                           RecursionError *)
| TooManyDigits         (* JSON with an integer literal beyond the digit
                           limit: ValueError *)
| Parsed (j : json).

Inductive node : Type :=
| File (content : file_content)
| Dir (readable : bool) (entries : list (string * node)).

Fixpoint assoc (k : string) (es : list (string * node)) : option node :=
  match es with
  | [] => None
  | (k', n) :: es' => if decide (k = k') then Some n else assoc k es'
  end.

Fixpoint lookup_node (n : node) (p : path) : option node :=
  match p with
  | [] => Some n
  | c :: p' =>
      match n with
      | Dir _ es =>
          match assoc c es with
          | Some n' => lookup_node n' p'
          | None => None
          end
      | File _ => None
      end
  end.

Definition is_dir_node (n : node) : bool :=
  match n with
  | Dir _ _ => true
  | File _ => false
  end.

(** ** Python operations on parsed JSON *)

(** [sub in s] on two strings. *)
Fixpoint contains (sub s : string) : bool :=
  String.prefix sub s ||
  match s with
  | EmptyString => false
  | String _ s' => contains sub s'
  end.

Definition is_str (k : string) (j : json) : bool :=
  match j with
  | JStr s => bool_decide (s = k)
  | _ => false
  end.

(** [k in data]: key test on a dict, element test on a list, substring
    test on a string, [TypeError] on anything else. *)
Definition py_in (k : string) (data : json) : result bool :=
  match data with
  | JObj m => Ok (bool_decide (is_Some (m !! k)))
  | JArr l => Ok (existsb (is_str k) l)
  | JStr s => Ok (contains k s)
  | _ => Raise TypeError
  end.

(** [data[k]] with a string subscript. *)
Definition py_getitem (data : json) (k : string) : result json :=
  match data with
  | JObj m =>
      match m !! k with
      | Some v => Ok v
      | None => Raise KeyError
      end
  | _ => Raise TypeError
  end.

(** [data.items()]. *)
Definition py_items (data : json) : result (list (string * json)) :=
  match data with
  | JObj m => Ok (map_to_list m)
  | _ => Raise AttributeError
  end.

(** [data.get(k, d)]. *)
Definition py_get (data : json) (k : string) (d : json) : result json :=
  match data with
  | JObj m => Ok (default d (m !! k))
  | _ => Raise AttributeError
  end.

(** [d.update(other)]: the keys of [other] win. *)
Definition update {V} (d other : gmap string V) : gmap string V := other ∪ d.

(** ** Result records *)

(** The value stored under a package name by [scan_node_modules]. *)
Record installed_package : Type := InstalledPackage {
  ip_version : json;
  ip_path : path;
  ip_parent_project : json
}.

(** The value stored under a package name by [scan_package_json]. *)
Record dependency_reference : Type := DependencyReference {
  dr_version : json;
  dr_dependency_type : string;
  dr_project : json;
  dr_path : path
}.

(** The locals of one run of [scan_directory_worker], together with the
    scanner attribute [scanned_dirs] that all runs share. *)
Record worker_state : Type := WorkerState {
  installed_packages : gmap string installed_package;
  dependency_references : gmap string dependency_reference;
  scanned_dirs : gset path
}.

Definition add_scanned (p : path) (st : worker_state) : worker_state :=
  WorkerState (installed_packages st) (dependency_references st)
              ({[p]} ∪ scanned_dirs st).

Definition update_installed (found : gmap string installed_package)
    (st : worker_state) : worker_state :=
  WorkerState (update (installed_packages st) found)
              (dependency_references st) (scanned_dirs st).

Definition update_dependencies (found : gmap string dependency_reference)
    (st : worker_state) : worker_state :=
  WorkerState (installed_packages st)
              (update (dependency_references st) found) (scanned_dirs st).

(** ** class PackageScanner *)

Import Stmt.
Local Open Scope stmt_scope.

Section PackageScanner.

(** The file system the scan runs on, and [self.target_packages]. *)
Variable fs : node.
Variable target_packages : gset string.

(** *** pathlib and os on [fs] *)

Definition path_exists (p : path) : bool :=
  bool_decide (is_Some (lookup_node fs p)).

Definition is_dir (p : path) : bool :=
  match lookup_node fs p with
  | Some n => is_dir_node n
  | None => false
  end.

(** [os.access(p, os.R_OK)]: an answer, never an exception. *)
Definition access_R_OK (p : path) : bool :=
  match lookup_node fs p with
  | Some (Dir readable _) => readable
  | Some (File Denied) => false
  | Some (File _) => true
  | None => false
  end.

(** [list(p.iterdir())]. *)
Definition iterdir (p : path) : result (list path) :=
  match lookup_node fs p with
  | Some (Dir true es) => Ok (map (λ e, p // e.1) es)
  | Some (Dir false _) => Raise PermissionError
  | Some (File _) => Raise NotADirectoryError
  | None => Raise FileNotFoundError
  end.

(** [with open(p, 'r', encoding='utf-8') as f: json.load(f)]. *)
Definition load_json (p : path) : result json :=
  match lookup_node fs p with
  | None => Raise FileNotFoundError
  | Some (Dir _ _) => Raise IsADirectoryError
  | Some (File Denied) => Raise PermissionError
  | Some (File Undecodable) => Raise UnicodeDecodeError
  | Some (File Malformed) => Raise JSONDecodeError
  | Some (File TooDeep) => Raise RecursionError
  | Some (File TooManyDigits) => Raise ValueError
  | Some (File (Parsed j)) => Ok j
  end.

(** *** should_skip_directory *)

Definition skip_dirs : gset string :=
  list_to_set
    [".git"; ".svn"; ".hg"; "__pycache__";
     "venv"; "env"; ".env"; "virtualenv";
     ".vscode"; ".idea"; "dist"; "build";
     "target"; "bin"; "obj"; ".cache";
     "Windows"; "System32"; "Program Files";
     "Applications"].

Definition allowed_dotted : gset string :=
  list_to_set [".npm"; ".node_modules"].

Definition should_skip_directory (p : path) : bool :=
  String.prefix "." (name p) && negb (bool_decide (name p ∈ allowed_dotted))
  || bool_decide (name p ∈ skip_dirs)
  || negb (access_R_OK p).

(** *** get_package_version *)

Definition get_package_version (package_path : path) : result json :=
  let package_json_path := package_path // "package.json" in
  try_except
    (if path_exists package_json_path then
       rbind (load_json package_json_path) (λ package_data,
         py_get package_data "version" (JStr "unknown"))
     else Ok (JStr "unknown"))
    caught_by_reader
    (Ok (JStr "unknown")).

(** *** find_parent_project *)

Definition find_parent_project (node_modules_path : path) : result json :=
  let parent_dir := parent node_modules_path in
  let package_json := parent_dir // "package.json" in
  try_except
    (if path_exists package_json then
       rbind (load_json package_json) (λ data,
         py_get data "name" (JStr (name parent_dir)))
     else Ok (JStr (name parent_dir)))
    caught_by_reader
    (Ok (JStr (name (parent node_modules_path)))).

(** *** scan_node_modules *)

(** [found_in_this_dir[key] = {'version': ..., 'path': ...,
    'parent_project': ...}], the two lookups evaluated in that order. *)
Definition record_installed (node_modules_path package_dir : path)
    (key : string) : M (gmap string installed_package) unit :=
  let! version := lift (get_package_version package_dir) in
  let! parent_project := lift (find_parent_project node_modules_path) in
  modify (<[key := InstalledPackage version package_dir parent_project]>).

(** The body of [for scoped_package in item.iterdir()]. *)
Definition scan_scoped_package (node_modules_path item scoped_package : path)
    : M (gmap string installed_package) unit :=
  if is_dir scoped_package then
    let full_name := name item +:+ "/" +:+ name scoped_package in
    if bool_decide (full_name ∈ target_packages) then
      record_installed node_modules_path scoped_package full_name
    else ret tt
  else ret tt.

(** The body of [for item in node_modules_path.iterdir()]. *)
Definition scan_item (node_modules_path item : path)
    : M (gmap string installed_package) unit :=
  if negb (is_dir item) then ret tt
  else if String.prefix "@" (name item) then
    catch
      (let! children := lift (iterdir item) in
       for_each (scan_scoped_package node_modules_path item) children)
      caught_by_lister
      (ret tt)
  else if bool_decide (name item ∈ target_packages) then
    record_installed node_modules_path item (name item)
  else ret tt.

Definition scan_node_modules (node_modules_path : path)
    : result (gmap string installed_package) :=
  let body :=
    catch
      (if negb (path_exists node_modules_path) then ret tt
       else
         let! items := lift (iterdir node_modules_path) in
         for_each (scan_item node_modules_path) items)
      caught_by_lister
      (ret tt) in
  match body ∅ with
  | (found_in_this_dir, Ok _) => Ok found_in_this_dir
  | (_, Raise e) => Raise e
  end.

(** *** scan_package_json *)

Definition dep_sections : list string :=
  ["dependencies"; "devDependencies"; "peerDependencies";
   "optionalDependencies"].

(** The body of [for pkg_name, version in data[section].items()]. *)
Definition scan_dependency (package_json_path : path) (data : json)
    (section : string) (entry : string * json)
    : M (gmap string dependency_reference) unit :=
  let pkg_name := entry.1 in
  let version := entry.2 in
  if bool_decide (pkg_name ∈ target_packages) then
    let! project := lift (py_get data "name" (JStr "unknown")) in
    modify (<[pkg_name :=
                DependencyReference version section project
                                    package_json_path]>)
  else ret tt.

(** The body of [for section in dep_sections]. *)
Definition scan_section (package_json_path : path) (data : json)
    (section : string) : M (gmap string dependency_reference) unit :=
  let! present := lift (py_in section data) in
  if present : bool then
    let! deps := lift (py_getitem data section) in
    let! items := lift (py_items deps) in
    for_each (scan_dependency package_json_path data section) items
  else ret tt.

Definition scan_package_json (package_json_path : path)
    : result (gmap string dependency_reference) :=
  let body :=
    catch
      (let! data := lift (load_json package_json_path) in
       for_each (scan_section package_json_path data) dep_sections)
      caught_by_reader
      (ret tt) in
  match body ∅ with
  | (found_dependencies, Ok _) => Ok found_dependencies
  | (_, Raise e) => Raise e
  end.

(** *** scan_directory_worker *)

(** The body of the [for current_path, dirs, files in os.walk(...)]
    loop.  The body only ever empties [dirs]; its value says whether
    [dirs] is still intact when the generator resumes. *)
Definition visit (current_path : path) (files : list string)
    : M worker_state bool :=
  if should_skip_directory current_path then ret false
  else
    let! st := get in
    if bool_decide (current_path ∈ scanned_dirs st) then ret true
    else
      do! modify (add_scanned current_path) in
      if bool_decide (name current_path = "node_modules") then
        let! found := lift (scan_node_modules current_path) in
        do! modify (update_installed found) in
        ret false
      else
        do! (if bool_decide ("package.json" ∈ files) then
               let! found_deps :=
                 lift (scan_package_json (current_path // "package.json")) in
               modify (update_dependencies found_deps)
             else ret tt) in
        if bool_decide (10 < length (parts current_path)) then ret false
        else ret true.

Definition nondirs (entries : list (string * node)) : list string :=
  map fst (filter (λ e, is_dir_node e.2 = false) entries).

(** [os.walk(top)], top-down, errors of [scandir] ignored, with the
    loop body run at each yield. *)
Fixpoint walk (top : path) (n : node) : M worker_state unit :=
  match n with
  | File _ => ret tt
  | Dir false _ => ret tt
  | Dir true entries =>
      let! keep := visit top (nondirs entries) in
      if keep : bool then
        (fix walk_dirs (es : list (string * node)) : M worker_state unit :=
           match es with
           | [] => ret tt
           | (d, child) :: es' =>
               do! (if is_dir_node child then walk (top // d) child
                    else ret tt) in
               walk_dirs es'
           end) entries
      else ret tt
  end.

(** [scan_directory_worker]: whatever the walk raises is printed and
    dropped, the two dictionaries built so far are returned. *)
Definition scan_directory_worker (root_path : path) (scanned : gset path)
    : worker_state :=
  let run :=
    match lookup_node fs root_path with
    | Some n => walk root_path n
    | None => ret tt
    end in
  (run (WorkerState ∅ ∅ scanned)).1.

(** *** scan_computer *)

Record scan_results : Type := ScanResults {
  res_installed_packages : gmap string installed_package;
  res_dependency_references : gmap string dependency_reference
}.

(** [results['installed_packages'].update(installed);
    results['dependency_references'].update(dependencies)]. *)
Definition merge (results : scan_results)
    (partial : gmap string installed_package
               * gmap string dependency_reference) : scan_results :=
  ScanResults (update (res_installed_packages results) partial.1)
              (update (res_dependency_references results) partial.2).

Record summary : Type := Summary {
  total_target_packages : nat;
  installed_packages_found : nat;
  dependency_references_found : nat;
  unique_packages_found : nat
}.

Definition summarize (results : scan_results) : summary :=
  Summary (size target_packages)
          (size (res_installed_packages results))
          (size (res_dependency_references results))
          (size (dom (res_installed_packages results)
                 ∪ dom (res_dependency_references results))).

(** The workers run one after the other in the order of
    [search_paths] (the schedule of a pool of one thread) and are
    merged in that order. *)
Definition scan_all (search_paths : list path) : scan_results * gset path :=
  fold_left
    (λ acc root_path,
       let st := scan_directory_worker root_path acc.2 in
       (merge acc.1 (installed_packages st, dependency_references st),
        scanned_dirs st))
    search_paths (ScanResults ∅ ∅, ∅).

Definition scan_computer (search_paths : list path)
    : scan_results * summary :=
  let results := (scan_all search_paths).1 in
  (results, summarize results).

End PackageScanner.


Arguments ScanResults _ _ : clear implicits.

(** ** The classifier in the words of the specification *)

(** Skip when the name is dotted and not an allowed cache name, or the
    name is on the deny-list, or the directory cannot be read. *)
Definition skip_rule (fs : node) (p : path) : Prop :=
  ((∃ rest, name p = String "." rest)
   ∧ name p ≠ ".npm" ∧ name p ≠ ".node_modules")
  ∨ In (name p)
       [".git"; ".svn"; ".hg"; "__pycache__"; "venv"; "env"; ".env";
        "virtualenv"; ".vscode"; ".idea"; "dist"; "build"; "target";
        "bin"; "obj"; ".cache"; "Windows"; "System32"; "Program Files";
        "Applications"]
  ∨ access_R_OK fs p = false.

(** ** What a manifest scan retains *)

(** The version a dependency section of the manifest declares for [k]. *)
Definition listing (fields : gmap string json) (section k : string)
    : option json :=
  match fields !! section with
  | Some (JObj deps) => deps !! k
  | _ => None
  end.

(** The class and version of the reference the specification retains
    for [k]: those of the last of the four classes, in the order
    dependencies, devDependencies, peerDependencies,
    optionalDependencies, that lists [k].  So optionalDependencies
    decides when it lists [k], then peerDependencies, then
    devDependencies, then dependencies. *)
Definition last_class_listing (fields : gmap string json) (k : string)
    : option (string * json) :=
  match listing fields "optionalDependencies" k with
  | Some version => Some ("optionalDependencies", version)
  | None =>
      match listing fields "peerDependencies" k with
      | Some version => Some ("peerDependencies", version)
      | None =>
          match listing fields "devDependencies" k with
          | Some version => Some ("devDependencies", version)
          | None =>
              match listing fields "dependencies" k with
              | Some version => Some ("dependencies", version)
              | None => None
              end
          end
      end
  end.

(** The one reference the specification retains for [k] from the
    manifest at [package_json_path]: none unless the file parses to an
    object, [k] is a target and one of the four classes lists it; then
    the reference with the class and version of [last_class_listing],
    the declared project name (or ["unknown"]) and the path of the
    manifest. *)
Definition retained_reference (fs : node) (target_packages : gset string)
    (package_json_path : path) (k : string) : option dependency_reference :=
  match lookup_node fs package_json_path with
  | Some (File (Parsed (JObj fields))) =>
      if bool_decide (k ∈ target_packages) then
        match last_class_listing fields k with
        | Some (section, version) =>
            Some (DependencyReference version section
                    (default (JStr "unknown") (fields !! "name"))
                    package_json_path)
        | None => None
        end
      else None
  | _ => None
  end.

(** *** The state of the loop over the sections *)

(** What the loop of [scan_package_json] holds for [k] after the
    sections [sections], having held [start] before them: every
    section that lists [k] overwrites what was held. *)
Definition last_listing_from (fields : gmap string json) (k : string)
    (sections : list string) (start : option (string * json))
    : option (string * json) :=
  foldl (λ acc section,
           match listing fields section k with
           | Some v => Some (section, v)
           | None => acc
           end) start sections.

(** What it holds after the whole loop, over the list [dep_sections]
    of the code. *)
Definition last_listing (fields : gmap string json) (k : string)
    : option (string * json) :=
  last_listing_from fields k dep_sections None.

(** The reference [scan_package_json] builds from what the loop
    holds. *)
Definition reference_of (fields : gmap string json) (package_json_path : path)
    (l : string * json) : dependency_reference :=
  DependencyReference l.2 l.1 (default (JStr "unknown") (fields !! "name"))
                      package_json_path.

(** One assignment [found_dependencies[pkg_name] = {...}] of the scan
    of an object manifest. *)
Definition note_dependency (target_packages : gset string)
    (package_json_path : path) (fields : gmap string json)
    (section : string) (found : gmap string dependency_reference)
    (entry : string * json) : gmap string dependency_reference :=
  if bool_decide (entry.1 ∈ target_packages) then
    <[entry.1 :=
        DependencyReference entry.2 section
          (default (JStr "unknown") (fields !! "name")) package_json_path]>
      found
  else found.

(** Every one of [sections] that the manifest has is an object. *)
Definition sections_are_objects (fields : gmap string json)
    (sections : list string) : Prop :=
  ∀ section j, section ∈ sections → fields !! section = Some j →
               ∃ deps, j = JObj deps.

(** Every record of [found] stands under a target and names the
    manifest at [package_json_path]. *)
Definition manifest_records (target_packages : gset string)
    (package_json_path : path) (found : gmap string dependency_reference)
    : Prop :=
  ∀ k r, found !! k = Some r →
         k ∈ target_packages ∧ dr_path r = package_json_path.

(** ** What a store scan records *)

(** A record the scan of the store [node_modules_path] may hold under
    the key [k]: a target identifier, found either in a plain child
    directory named [k], or in a child of a scope directory, with [k]
    the scope name, a slash and the child name. *)
Definition store_record (target_packages : gset string)
    (node_modules_path : path) (k : string) (r : installed_package) : Prop :=
  k ∈ target_packages
  ∧ ((∃ item, String.prefix "@" item = false
              ∧ ip_path r = node_modules_path // item ∧ k = item)
     ∨ (∃ scope child, String.prefix "@" scope = true
                       ∧ ip_path r = node_modules_path // scope // child
                       ∧ k = scope +:+ "/" +:+ child)).

(** [found'] is [found] with some such records written into it. *)
Definition store_extends (target_packages : gset string)
    (node_modules_path : path)
    (found found' : gmap string installed_package) : Prop :=
  ∀ k, found' !! k = found !! k
       ∨ ∃ r, found' !! k = Some r
              ∧ store_record target_packages node_modules_path k r.

(** Every file of [fs] that can be opened either is not JSON at all
    or parses to an object: none is undecodable, nested too deep or
    holding too long a number, and none parses to another value. *)
Definition metadata_are_objects (fs : node) : Prop :=
  ∀ p, match lookup_node fs p with
       | Some (File Undecodable) => False
       | Some (File TooDeep) => False
       | Some (File TooManyDigits) => False
       | Some (File (Parsed (JObj _))) => True
       | Some (File (Parsed _)) => False
       | _ => True
       end.

(** ** The invariant of the two result maps *)

(** Every key of [m] is a target. *)
Definition keys_in {V} (target_packages : gset string) (m : gmap string V)
    : Prop :=
  ∀ k, is_Some (m !! k) → k ∈ target_packages.

Definition state_keys_in (T : gset string) (st : worker_state) : Prop :=
  keys_in T (installed_packages st) ∧ keys_in T (dependency_references st).

(** What can be built from the empty result by store scans, manifest
    scans and merges, in any order and at any paths. *)
Inductive built (fs : node) (target_packages : gset string)
    : scan_results → Prop :=
| built_empty :
    built fs target_packages (ScanResults ∅ ∅)
| built_store results node_modules_path found :
    built fs target_packages results →
    scan_node_modules fs target_packages node_modules_path = Ok found →
    built fs target_packages (merge results (found, ∅))
| built_manifest results package_json_path found :
    built fs target_packages results →
    scan_package_json fs target_packages package_json_path = Ok found →
    built fs target_packages (merge results (∅, found))
| built_merge results partial :
    built fs target_packages results →
    built fs target_packages partial →
    built fs target_packages
      (merge results (res_installed_packages partial,
                      res_dependency_references partial)).

(** ** Where a walk goes *)

(** The descent into the entries of a directory. *)
Definition walk_dirs (fs : node) (T : gset string) (top : path)
  : list (string * node) → M worker_state unit :=
  fix walk_dirs (es : list (string * node)) : M worker_state unit :=
    match es with
    | [] => ret tt
    | (d, child) :: es' =>
        bind (if is_dir_node child then walk fs T (top // d) child else ret tt)
             (λ _, walk_dirs es')
    end.

(** [q] is reached from [root] through directories, [root] and [q]
    included, none of which the classifier skips. *)
Inductive unskipped_from (fs : node) (root : path) : path → Prop :=
| unskipped_root :
    should_skip_directory fs root = false →
    unskipped_from fs root root
| unskipped_child q d :
    unskipped_from fs root q →
    should_skip_directory fs (q // d) = false →
    unskipped_from fs root (q // d).

(** The walk from [root] is at [top]: at the root itself, or at a child
    of a directory reached through unskipped directories. *)
Definition entered (fs : node) (root top : path) : Prop :=
  top = root ∨ ∃ q d, top = q // d ∧ unskipped_from fs root q.

(** The place of an installed record: an entry of the store [q], plain
    or scoped. *)
Definition in_store (q : path) (r : installed_package) : Prop :=
  (∃ item, ip_path r = q // item)
  ∨ (∃ scope child, ip_path r = q // scope // child).

(** What a walk from [root] that started with the visited set
    [scanned] has done so far. *)
Definition walked (fs : node) (root : path) (scanned : gset path)
    (st : worker_state) : Prop :=
  (∀ q, q ∈ scanned_dirs st → q ∈ scanned ∨ unskipped_from fs root q)
  ∧ (∀ k r, dependency_references st !! k = Some r →
       ∃ q, unskipped_from fs root q ∧ dr_path r = q // "package.json")
  ∧ (∀ k r, installed_packages st !! k = Some r →
       ∃ q, unskipped_from fs root q ∧ in_store q r).

(** Every directory from [root] down to [q], both included, has a name
    outside the deny-list. *)
Definition off_deny_list (root q : path) : Prop :=
  root `prefix_of` q
  ∧ ∀ d, root `prefix_of` d → d `prefix_of` q → name d ∉ skip_dirs.

(** ** File systems and results for the examples *)

Definition obj (fields : list (string * json)) : json :=
  JObj (list_to_map fields).

Definition manifest (fields : list (string * json)) : node :=
  File (Parsed (obj fields)).

(** A package directory whose metadata file holds the JSON text [[]]. *)
Definition fs_array_metadata : node :=
  Dir true [("pkg", Dir true [("package.json", File (Parsed (JArr [])))])].

(** A package directory whose metadata declares the number [1] as its
    version. *)
Definition fs_numeric_version : node :=
  Dir true [("pkg", Dir true [("package.json",
                               manifest [("version", JNum "1")])])].

(** A manifest that lists [left-pad] in each of the four classes. *)
Definition four_classes_fields : gmap string json :=
  list_to_map
    [("name", JStr "app");
     ("dependencies", obj [("left-pad", JStr "^1.0.0")]);
     ("devDependencies", obj [("left-pad", JStr "^1.1.0")]);
     ("peerDependencies", obj [("left-pad", JStr "^1.2.0")]);
     ("optionalDependencies", obj [("left-pad", JStr "^1.3.0")])].

Definition fs_four_classes : node :=
  Dir true
    [("app", Dir true
        [("package.json", File (Parsed (JObj four_classes_fields)))])].

(** A project with a store that holds the scoped package
    [@ctrl/tinycolor] and the plain package [left-pad]. *)
Definition fs_store : node :=
  Dir true
    [("app", Dir true
        [("package.json",
          manifest [("name", JStr "app");
                    ("dependencies", obj [("left-pad", JStr "^1.0.0")])]);
         ("node_modules", Dir true
            [("@ctrl", Dir true
                [("tinycolor", Dir true
                    [("package.json",
                      manifest [("version", JStr "4.1.1")])])]);
             ("left-pad", Dir true
                [("package.json",
                  manifest [("version", JStr "1.3.0")])])])])].

(** The same store, with a scope directory [@ctrl] that cannot be
    listed. *)
Definition fs_unlistable_scope : node :=
  Dir true
    [("app", Dir true
        [("package.json", manifest [("name", JStr "app")]);
         ("node_modules", Dir true
            [("@ctrl", Dir false
                [("tinycolor", Dir true
                    [("package.json",
                      manifest [("version", JStr "4.1.1")])])])])])].

(** A project that lies inside a directory named [build]. *)
Definition fs_under_build : node :=
  Dir true
    [("build", Dir true
        [("app", Dir true
            [("package.json",
              manifest
                [("name", JStr "app");
                 ("dependencies", obj [("left-pad", JStr "^1.0.0")])])])])].

(** A store that holds a package whose directory is named [dist]. *)
Definition fs_store_dist : node :=
  Dir true
    [("app", Dir true
        [("node_modules", Dir true
            [("dist", Dir true
                [("package.json", manifest [("version", JStr "0.1.0")])])])])].

(** The directory chain [names], with [inner] at its end. *)
Definition nest (names : list string) (inner : node) : node :=
  foldr (λ d n, Dir true [(d, n)]) inner names.

(** A project directory with a store that holds [left-pad]. *)
Definition project_with_store : node :=
  Dir true
    [("node_modules", Dir true
        [("left-pad", Dir true
            [("package.json", manifest [("version", JStr "1.3.0")])])])].

Definition nine : path :=
  ["a1"; "a2"; "a3"; "a4"; "a5"; "a6"; "a7"; "a8"; "a9"].

Definition ten : path := nine // "a10".

(** The project nine directories down: the project directory has 10
    parts, its store 11. *)
Definition fs_nine_down : node := nest nine project_with_store.

(** The project ten directories down: the project directory has 11
    parts, its store 12. *)
Definition fs_ten_down : node := nest ten project_with_store.

(** A store under two roots, [r] and [r/sub]; the package [a] in the
    store declares a dependency on [left-pad]. *)
Definition fs_overlap : node :=
  Dir true
    [("r", Dir true
        [("sub", Dir true
            [("node_modules", Dir true
                [("a", Dir true
                    [("package.json",
                      manifest
                        [("name", JStr "a");
                         ("dependencies",
                          obj [("left-pad", JStr "^1.0.0")])])])])])])].

Definition partial_left
    : gmap string installed_package * gmap string dependency_reference :=
  ({["left-pad" :=
       InstalledPackage (JStr "1.3.0") ["app"; "node_modules"; "left-pad"]
                        (JStr "app")]},
   {["left-pad" :=
       DependencyReference (JStr "^1.0.0") "dependencies" (JStr "app")
                           ["app"; "package.json"]]}).

Definition partial_right
    : gmap string installed_package * gmap string dependency_reference :=
  ({["ngx-color" :=
       InstalledPackage (JStr "10.0.1") ["web"; "node_modules"; "ngx-color"]
                        (JStr "web")]},
   {["ngx-color" :=
       DependencyReference (JStr "10.0.1") "devDependencies" (JStr "web")
                           ["web"; "package.json"]]}).

(** ** More of what a store scan records *)

(** The record was read off the file system: its path is a directory,
    its version is what the version lookup gives for that directory,
    and its project is what the project lookup gives for the store. *)
Definition read_from (fs : node) (node_modules_path : path)
    (r : installed_package) : Prop :=
  is_dir fs (ip_path r) = true
  ∧ get_package_version fs (ip_path r) = Ok (ip_version r)
  ∧ find_parent_project fs node_modules_path = Ok (ip_parent_project r).

Definition all_read_from (fs : node) (node_modules_path : path)
    (found : gmap string installed_package) : Prop :=
  ∀ k r, found !! k = Some r → read_from fs node_modules_path r.

(** ** Manifests that are no objects *)

(** [section in data] holds for one of the four sections: the array
    has the section name among its elements, or the string has it as a
    substring. *)
Definition names_a_section (data : json) : bool :=
  match data with
  | JArr l => existsb (λ section, existsb (is_str section) l) dep_sections
  | JStr s => existsb (λ section, contains section s) dep_sections
  | _ => false
  end.

(** ** Trees without duplicate names *)

(** No directory of the tree lists a name twice. *)
Inductive well_formed : node → Prop :=
| well_formed_file c : well_formed (File c)
| well_formed_dir r es :
    NoDup es.*1 →
    Forall (λ e, well_formed e.2) es →
    well_formed (Dir r es).

(** The walk goes on below [p]: [p] is not skipped, and it either was
    visited before this walk or is a plain directory (no store) with at
    most 10 parts. *)
Definition passable (fs : node) (scanned : gset path) (p : path) : Prop :=
  should_skip_directory fs p = false
  ∧ (p ∈ scanned
     ∨ (name p ≠ "node_modules" ∧ (length (parts p) ≤ 10)%nat)).

(** [q] is reached from [root] through passable directories. *)
Inductive reached (fs : node) (scanned : gset path) (root : path)
    : path → Prop :=
| reached_root : reached fs scanned root root
| reached_child q d :
    reached fs scanned root q →
    passable fs scanned q →
    reached fs scanned root (q // d).

(** No path at or below [top] has been visited by this walk yet. *)
Definition fresh (scanned : gset path) (top : path) (st : worker_state)
    : Prop :=
  ∀ q, q ∈ scanned_dirs st → top `prefix_of` q → q ∈ scanned.

(** Every visited path was visited before this walk or is reached from
    the root. *)
Definition all_reached (fs : node) (scanned : gset path) (root : path)
    (st : worker_state) : Prop :=
  ∀ q, q ∈ scanned_dirs st → q ∈ scanned ∨ reached fs scanned root q.

(** ** parse_package_list *)

(** The characters of a string are code points below 256.  These are
    the ones Python's [str.strip()] removes. *)
Definition is_space (c : ascii) : bool :=
  let n := nat_of_ascii c in
  Nat.leb 9 n && Nat.leb n 13 || Nat.leb 28 n && Nat.leb n 32
  || Nat.eqb n 133 || Nat.eqb n 160.

Definition newline : ascii := "010"%char.
Definition tab : ascii := "009"%char.

(** [s.lstrip()]. *)
Fixpoint lstrip (s : string) : string :=
  match s with
  | EmptyString => EmptyString
  | String c s' => if is_space c then lstrip s' else s
  end.

(** [s.rstrip()]. *)
Fixpoint rstrip (s : string) : string :=
  match s with
  | EmptyString => EmptyString
  | String c s' =>
      match rstrip s' with
      | EmptyString => if is_space c then EmptyString else String c EmptyString
      | r => String c r
      end
  end.

(** [s.strip()]. *)
Definition strip (s : string) : string := rstrip (lstrip s).

(** [s.split(sep)] for a separator of one character: never empty. *)
Fixpoint split (sep : ascii) (s : string) : list string :=
  match s with
  | EmptyString => [EmptyString]
  | String c s' =>
      if Ascii.eqb c sep then EmptyString :: split sep s'
      else match split sep s' with
           | [] => [String c EmptyString]
           | w :: ws => String c w :: ws
           end
  end.

(** [c in s] for a character [c]. *)
Fixpoint has_char (c : ascii) (s : string) : bool :=
  match s with
  | EmptyString => false
  | String c' s' => Ascii.eqb c' c || has_char c s'
  end.

(** The body of [for line in lines[1:]]. *)
Definition parse_line (packages : gset string) (line : string)
    : gset string :=
  if has_char tab line then
    let package_name := strip (hd EmptyString (split tab line)) in
    if negb (String.eqb package_name EmptyString)
    then {[package_name]} ∪ packages
    else packages
  else packages.

Definition parse_package_list (package_text : string) : gset string :=
  let lines := split newline (strip package_text) in
  foldl parse_line ∅ (tail lines).

(** ["\n".join(lines)]. *)
Fixpoint join_lines (lines : list string) : string :=
  match lines with
  | [] => EmptyString
  | [l] => l
  | l :: ls => l +:+ String newline (join_lines ls)
  end.

(** A package list as [main] holds it: a header line, then one line
    per package, the name, a tab and the versions. *)
Definition render_package_list (header : string)
    (entries : list (string * string)) : string :=
  join_lines (header :: map (λ e, e.1 +:+ String tab e.2) entries).

(** A package name that survives parsing unchanged: not empty, no
    white space at either end, no tab and no line break inside. *)
Definition clean_name (n : string) : Prop :=
  n ≠ EmptyString ∧ strip n = n
  ∧ has_char tab n = false ∧ has_char newline n = false.

(** ** get_search_paths *)

(** [sys.platform] as the method reads it, with the directories that
    the three environment variables of the Windows branch name. *)
Inductive platform : Type :=
| Windows (appdata programfiles programfiles_x86 : path)
| Darwin
| OtherPosix.

Definition common_dev_dirs (home : path) : list path :=
  [home // "Documents"; home // "Desktop"; home // "Projects";
   home // "Development"; home // "dev"; home // "workspace";
   home // "code"].

(** [None] stands for the [None] the list holds off macOS. *)
Definition global_npm_paths (home : path) (pf : platform)
    : list (option path) :=
  match pf with
  | Windows appdata programfiles programfiles_x86 =>
      [Some (appdata // "npm"); Some (programfiles // "nodejs");
       Some (programfiles_x86 // "nodejs")]
  | Darwin =>
      [Some ["usr"; "local"; "lib"; "node_modules"];
       Some ["usr"; "lib"; "node_modules"];
       Some (home // ".npm"); Some (home // ".npm-global");
       Some ["opt"; "homebrew"; "lib"; "node_modules"]]
  | OtherPosix =>
      [Some ["usr"; "local"; "lib"; "node_modules"];
       Some ["usr"; "lib"; "node_modules"];
       Some (home // ".npm"); Some (home // ".npm-global");
       None]
  end.

(** [home] is [Path.home()]. *)
Definition get_search_paths (fs : node) (home : path) (pf : platform)
    : list path :=
  let paths := [home] in
  let paths :=
    foldl (λ (paths : list path) dev_dir,
             if path_exists fs dev_dir && is_dir fs dev_dir
             then (paths ++ [dev_dir])%list else paths)
          paths (common_dev_dirs home) in
  let paths :=
    foldl (λ (paths : list path) npm_path,
             match npm_path with
             | Some p =>
                 if path_exists fs p then (paths ++ [p])%list else paths
             | None => paths
             end)
          paths (global_npm_paths home pf) in
  filter (λ p, path_exists fs p = true) paths.

(** ** What a walk reaches *)

(** [q] is reached from [top] going down through directories that can
    be listed and are not skipped, each one above [q] a plain
    directory with at most 10 parts. *)
Inductive reach (fs : node) : path → path → Prop :=
| reach_here top es :
    lookup_node fs top = Some (Dir true es) →
    should_skip_directory fs top = false →
    reach fs top top
| reach_below top es d q :
    lookup_node fs top = Some (Dir true es) →
    should_skip_directory fs top = false →
    name top ≠ "node_modules" →
    (length (parts top) ≤ 10)%nat →
    reach fs (top // d) q →
    reach fs top q.

(** The state holds what the scan of [q] yields: [q] is visited, and
    the keys of its store scan, or of the scan of its manifest file,
    are keys of the state's maps. *)
Definition covered (fs : node) (target_packages : gset string) (q : path)
    (st : worker_state) : Prop :=
  q ∈ scanned_dirs st
  ∧ (name q = "node_modules" →
     ∀ found, scan_node_modules fs target_packages q = Ok found →
              dom found ⊆ dom (installed_packages st))
  ∧ (name q ≠ "node_modules" →
     (∃ c, lookup_node fs (q // "package.json") = Some (File c)) →
     ∀ found,
       scan_package_json fs target_packages (q // "package.json") = Ok found →
       dom found ⊆ dom (dependency_references st)).

(** [st'] has everything [st] has. *)
Definition grows (st st' : worker_state) : Prop :=
  scanned_dirs st ⊆ scanned_dirs st'
  ∧ dom (installed_packages st) ⊆ dom (installed_packages st')
  ∧ dom (dependency_references st) ⊆ dom (dependency_references st').
(** * Properties *)

(** ** Paths and lookups *)

Lemma name_joinpath (p : path) (c : string) : name (p // c) = c.
Proof. unfold name, joinpath. by rewrite last_snoc. Qed.

Lemma parent_joinpath (p : path) (c : string) : parent (p // c) = p.
Proof. unfold parent, joinpath. apply removelast_last. Qed.

Lemma length_parts_joinpath (p : path) (c : string) :
  length (parts (p // c)) = S (length (parts p)).
Proof. unfold parts, joinpath. simpl. rewrite length_app. simpl. lia. Qed.

(** ** Merging partial results *)

Section Update.
Context {V : Type}.
Implicit Types d a b : gmap string V.

Lemma lookup_update d other k :
  update d other !! k =
    match other !! k with
    | Some v => Some v
    | None => d !! k
    end.
Proof.
  unfold update. rewrite lookup_union.
  destruct (other !! k), (d !! k); done.
Qed.

Lemma update_disjoint_comm d a b :
  dom a ## dom b → update (update d a) b = update (update d b) a.
Proof.
  intros Hdisj. apply map_eq. intros k. rewrite !lookup_update.
  destruct (a !! k) as [x|] eqn:Ha, (b !! k) as [y|] eqn:Hb; try done.
  exfalso. apply (Hdisj k); apply elem_of_dom; eauto.
Qed.

Lemma update_shared_key d a b k x y :
  a !! k = Some x → b !! k = Some y →
  update (update d a) b !! k = Some y.
Proof. intros Ha Hb. by rewrite lookup_update, Hb. Qed.

End Update.

(** C8.  Merging two partial results whose key sets are disjoint gives
    the same result in either order; when the two share a key, the
    merged map holds under that key exactly the record of the partial
    result merged last, which is one of the two records. *)
Theorem merge_commutes_modulo_last_write
    (results : scan_results)
    (p1 p2 : gmap string installed_package
             * gmap string dependency_reference) :
  (dom p1.1 ## dom p2.1 → dom p1.2 ## dom p2.2 →
   merge (merge results p1) p2 = merge (merge results p2) p1)
  ∧ (∀ k x y, p1.1 !! k = Some x → p2.1 !! k = Some y →
       res_installed_packages (merge (merge results p1) p2) !! k = Some y
       ∧ res_installed_packages (merge (merge results p2) p1) !! k = Some x)
  ∧ (∀ k x y, p1.2 !! k = Some x → p2.2 !! k = Some y →
       res_dependency_references (merge (merge results p1) p2) !! k = Some y
       ∧ res_dependency_references (merge (merge results p2) p1) !! k
         = Some x).
Proof.
  destruct results as [ri rd], p1 as [i1 d1], p2 as [i2 d2]. simpl.
  split; [|split].
  - intros Hi Hd. unfold merge. simpl. f_equal; by apply update_disjoint_comm.
  - intros k x y Hx Hy. split; by eapply update_shared_key.
  - intros k x y Hx Hy. split; by eapply update_shared_key.
Qed.

Lemma merge_commutes_modulo_last_write_witness :
  merge (merge (ScanResults ∅ ∅) partial_left) partial_right
  = merge (merge (ScanResults ∅ ∅) partial_right) partial_left.
Proof.
  apply (proj1 (merge_commutes_modulo_last_write
                  (ScanResults ∅ ∅) partial_left partial_right)).
  - simpl. rewrite !dom_singleton_L. apply disjoint_singleton_l.
    rewrite elem_of_singleton. discriminate.
  - simpl. rewrite !dom_singleton_L. apply disjoint_singleton_l.
    rewrite elem_of_singleton. discriminate.
Defined.


(** ** The directory classifier *)

Lemma prefix_dot (s : string) :
  String.prefix "." s = true ↔ ∃ rest, s = String "." rest.
Proof.
  destruct s as [|a s]; cbn -[ascii_dec].
  - split; [done | by intros [? ?]].
  - destruct (ascii_dec "." a) as [<-|Hne].
    + split; [eauto | by destruct s].
    + split; [done | intros [rest Heq]; congruence].
Qed.

(** C6.  The classifier answers skip exactly when the name is dotted and
    not one of the two allowed cache names, or the name is on the
    deny-list, or the directory is not readable ([os.access] answers
    and never raises, also for a path that does not exist). *)
Theorem should_skip_directory_spec (fs : node) (p : path) :
  should_skip_directory fs p = true ↔ skip_rule fs p.
Proof.
  unfold should_skip_directory, skip_rule.
  rewrite !orb_true_iff, andb_true_iff, !negb_true_iff, prefix_dot.
  rewrite bool_decide_eq_false, !bool_decide_eq_true.
  unfold allowed_dotted, skip_dirs. rewrite !elem_of_list_to_set.
  rewrite <- !list_elem_of_In.
  rewrite !not_elem_of_cons, !elem_of_cons.
  split.
  - intros [[(Hdot & Hn1 & Hn2 & _)|Hdeny]|Hacc]; [left|right; left|right; right];
      try done.
  - intros [(Hdot & Hn1 & Hn2)|[Hdeny|Hacc]]; [left; left|left; right|right];
      try done.
    repeat split; try done. apply not_elem_of_nil.
Qed.

(** ** Version lookup *)

Lemma path_exists_lookup (fs : node) (p : path) :
  path_exists fs p = true ↔ is_Some (lookup_node fs p).
Proof. unfold path_exists. apply bool_decide_eq_true. Qed.

(** Every case of [get_package_version], by what lies at
    [package_path / 'package.json']. *)
Lemma get_package_version_cases (fs : node) (package_path : path) :
  get_package_version fs package_path =
    match lookup_node fs (package_path // "package.json") with
    | Some (File (Parsed (JObj fields))) =>
        Ok (default (JStr "unknown") (fields !! "version"))
    | Some (File (Parsed _)) => Raise AttributeError
    | Some (File Undecodable) => Raise UnicodeDecodeError
    | Some (File TooDeep) => Raise RecursionError
    | Some (File TooManyDigits) => Raise ValueError
    | _ => Ok (JStr "unknown")
    end.
Proof.
  unfold get_package_version, path_exists, load_json.
  destruct (lookup_node fs (package_path // "package.json"))
    as [[[| | | | |[]]|]|] eqn:Hl; simpl; try done.
Qed.

(** Whatever [get_package_version] raises passes every [OSError]
    handler above it. *)
Lemma try_except_raise {A} (body fallback : result A) handled e a :
  fallback = Ok a →
  try_except body handled fallback = Raise e → handled e = false.
Proof.
  intros ->. unfold try_except. destruct body as [|e']; [done|].
  destruct (handled e') eqn:He; [done|]. by intros [= <-].
Qed.

Lemma get_package_version_raise (fs : node) (p : path) (e : exn) :
  get_package_version fs p = Raise e → is_OSError e = false.
Proof.
  intros H. eapply try_except_raise in H; [|done].
  by destruct e.
Qed.

Lemma find_parent_project_raise (fs : node) (p : path) (e : exn) :
  find_parent_project fs p = Raise e → is_OSError e = false.
Proof.
  intros H. eapply try_except_raise in H; [|done].
  by destruct e.
Qed.

(** C5.  The version lookup lets a failure through: on a metadata file
    that parses to a JSON array the [.get] call raises [AttributeError],
    which no handler of the lookup catches; and on a metadata object
    whose version field is a number the lookup returns that number, not
    a string. *)
Theorem get_package_version_propagates_failure :
  get_package_version fs_array_metadata ["pkg"] = Raise AttributeError
  ∧ get_package_version fs_numeric_version ["pkg"] = Ok (JNum "1").
Proof. split; reflexivity. Qed.

(** ** Loops *)

Section ForEach.
Context {S X : Type}.
Implicit Types (body : X → M S unit) (xs : list X) (s : S).

(** What every iteration preserves, the loop preserves, whether it
    finishes or raises. *)
Lemma for_each_invariant (P : S → Prop) body xs s :
  (∀ x s0, x ∈ xs → P s0 → P (body x s0).1) →
  P s → P (for_each body xs s).1.
Proof.
  revert s. induction xs as [|x xs IH]; intros s Hbody Hs; [done|].
  simpl. unfold bind.
  pose proof (Hbody x s (list_elem_of_here _ _) Hs) as Hx.
  destruct (body x s) as [s1 [[]|e]]; simpl in *; [|done].
  apply IH; [|done]. intros y s0 Hy. apply Hbody. by right.
Qed.

(** A loop of updates that cannot raise is a left fold. *)
Lemma for_each_foldl (step : S → X → S) body xs s :
  (∀ x s0, body x s0 = (step s0 x, Ok tt)) →
  for_each body xs s = (foldl step s xs, Ok tt).
Proof.
  intros Hbody. revert s. induction xs as [|x xs IH]; intros s; [done|].
  simpl. unfold bind. by rewrite Hbody, IH.
Qed.

(** In a loop that finishes, what one iteration establishes and the
    others preserve holds at the end. *)
Lemma for_each_establishes (Q : S → Prop) body xs x s s' :
  for_each body xs s = (s', Ok tt) →
  x ∈ xs →
  (∀ s0 s1, body x s0 = (s1, Ok tt) → Q s1) →
  (∀ y s0, y ∈ xs → Q s0 → Q (body y s0).1) →
  Q s'.
Proof.
  revert s. induction xs as [|y xs IH]; intros s Hrun Hx Hest Hpres.
  { by apply elem_of_nil in Hx. }
  simpl in Hrun. unfold bind in Hrun.
  destruct (body y s) as [s1 [[]|e]] eqn:Hy; [|done].
  apply elem_of_cons in Hx as [->|Hx].
  - replace s' with (for_each body xs s1).1 by (by rewrite Hrun).
    apply for_each_invariant; [|by eapply Hest].
    intros z s0 Hz. apply Hpres. by right.
  - eapply IH; [done|done|done|].
    intros z s0 Hz. apply Hpres. by right.
Qed.

(** A loop raises only what one of its iterations raises. *)
Lemma for_each_raise (R : exn → Prop) body xs s s' e :
  (∀ x s0 s1 e0, x ∈ xs → body x s0 = (s1, Raise e0) → R e0) →
  for_each body xs s = (s', Raise e) → R e.
Proof.
  revert s. induction xs as [|x xs IH]; intros s Hbody Hrun; [done|].
  simpl in Hrun. unfold bind in Hrun.
  destruct (body x s) as [s1 [[]|e1]] eqn:Hx.
  - eapply IH; [|done]. intros y s0 s2 e0 Hy. apply Hbody. by right.
  - injection Hrun as _ <-. eapply Hbody; [|done]. by left.
Qed.

End ForEach.

(** ** Dependency extraction *)

Section ManifestScan.
Variable fs : node.
Variable target_packages : gset string.
Variable package_json_path : path.
Variable fields : gmap string json.

Local Abbreviation found_map := (gmap string dependency_reference).
Local Abbreviation project := (default (JStr "unknown") (fields !! "name")).
Local Abbreviation note_dependency :=
  (note_dependency target_packages package_json_path fields).
Local Abbreviation sections_are_objects := (sections_are_objects fields).

Lemma scan_dependency_step section entry (found : found_map) :
  scan_dependency target_packages package_json_path (JObj fields)
                  section entry found
  = (note_dependency section found entry, Ok tt).
Proof.
  unfold scan_dependency, note_dependency.
  destruct (bool_decide (entry.1 ∈ target_packages)); done.
Qed.

Lemma note_dependencies_lookup section (l : list (string * json))
    (found : found_map) k :
  NoDup l.*1 →
  foldl (note_dependency section) found l !! k =
    match (list_to_map l : gmap string json) !! k with
    | Some v =>
        if bool_decide (k ∈ target_packages)
        then Some (DependencyReference v section project package_json_path)
        else found !! k
    | None => found !! k
    end.
Proof.
  revert found. induction l as [|[k0 v0] l IH]; intros found Hnd; [done|].
  apply NoDup_cons in Hnd as [Hk0 Hnd].
  rewrite list_to_map_cons. cbn [foldl]. rewrite IH by done.
  destruct (decide (k = k0)) as [->|Hne].
  - rewrite lookup_insert_eq.
    rewrite (not_elem_of_list_to_map_1 _ _ Hk0).
    unfold note_dependency. simpl.
    destruct (bool_decide (k0 ∈ target_packages)); [|done].
    by rewrite lookup_insert_eq.
  - rewrite lookup_insert_ne by done.
    assert (note_dependency section found (k0, v0) !! k = found !! k) as ->.
    { unfold note_dependency. simpl.
      destruct (bool_decide (k0 ∈ target_packages)); [|done].
      by rewrite lookup_insert_ne. }
    done.
Qed.

(** One section of an object manifest. *)
Lemma scan_section_object section (found : found_map) :
  scan_section target_packages package_json_path (JObj fields) section found
  = match fields !! section with
    | None => (found, Ok tt)
    | Some (JObj deps) =>
        (foldl (note_dependency section) found (map_to_list deps), Ok tt)
    | Some _ => (found, Raise AttributeError)
    end.
Proof.
  unfold scan_section, bind, lift. simpl.
  destruct (fields !! section) as [j|] eqn:Hs.
  - rewrite bool_decide_eq_true_2 by eauto.
    destruct j; simpl; try done.
    apply for_each_foldl. intros. apply scan_dependency_step.
  - rewrite bool_decide_eq_false_2; [done|]. by intros [? ?].
Qed.

Lemma scan_sections_lookup (sections : list string) (found : found_map)
    (start : string → option (string * json)) :
  sections_are_objects sections →
  (∀ k, found !! k =
        if bool_decide (k ∈ target_packages)
        then reference_of fields package_json_path <$> start k
        else None) →
  ∃ found',
    for_each (scan_section target_packages package_json_path (JObj fields))
             sections found = (found', Ok tt)
    ∧ ∀ k, found' !! k =
           if bool_decide (k ∈ target_packages)
           then reference_of fields package_json_path
                  <$> last_listing_from fields k sections (start k)
           else None.
Proof.
  revert found start.
  induction sections as [|section sections IH]; intros found start Hobj Hfound.
  { exists found. done. }
  simpl. unfold bind. rewrite scan_section_object.
  assert (sections_are_objects sections) as Hobj'.
  { intros s j Hs. apply Hobj. by right. }
  unfold last_listing_from in *. simpl. unfold listing at 2.
  destruct (fields !! section) as [j|] eqn:Hs.
  - destruct (Hobj section j (list_elem_of_here _ _) Hs) as [deps ->].
    apply (IH _ (λ k, match deps !! k with
                      | Some v => Some (section, v)
                      | None => start k
                      end)); [done|].
    intros k. rewrite note_dependencies_lookup
      by apply NoDup_fst_map_to_list.
    rewrite list_to_map_to_list, Hfound.
    destruct (deps !! k), (bool_decide (k ∈ target_packages)); done.
  - by apply (IH _ start).
Qed.

(** The whole scan of a manifest that parses to an object whose
    dependency sections are objects. *)
Lemma scan_package_json_object :
  load_json fs package_json_path = Ok (JObj fields) →
  sections_are_objects dep_sections →
  ∃ found,
    scan_package_json fs target_packages package_json_path = Ok found
    ∧ ∀ k, found !! k =
           if bool_decide (k ∈ target_packages)
           then reference_of fields package_json_path
                  <$> last_listing fields k
           else None.
Proof.
  intros Hload Hobj.
  destruct (scan_sections_lookup dep_sections ∅ (λ _, None) Hobj)
    as (found & Hrun & Hfound).
  { intros k. rewrite lookup_empty. by destruct (bool_decide _). }
  exists found. split; [|done].
  unfold scan_package_json, catch, bind, lift. rewrite Hload.
  by rewrite Hrun.
Qed.

(** Without that assumption the loop over the sections either
    finishes in the same way or stops at a section that is no object,
    with [AttributeError]. *)
Lemma scan_sections_cases (sections : list string) (found : found_map)
    (start : string → option (string * json)) :
  (∀ k, found !! k =
        if bool_decide (k ∈ target_packages)
        then reference_of fields package_json_path <$> start k
        else None) →
  (∃ found',
      for_each (scan_section target_packages package_json_path (JObj fields))
               sections found = (found', Ok tt)
      ∧ ∀ k, found' !! k =
             if bool_decide (k ∈ target_packages)
             then reference_of fields package_json_path
                    <$> last_listing_from fields k sections (start k)
             else None)
  ∨ (∃ found',
        for_each (scan_section target_packages package_json_path (JObj fields))
                 sections found = (found', Raise AttributeError)).
Proof.
  revert found start.
  induction sections as [|section sections IH]; intros found start Hfound.
  { left. exists found. done. }
  simpl. unfold bind. rewrite scan_section_object.
  unfold last_listing_from in *. simpl. unfold listing at 2.
  destruct (fields !! section) as [j|] eqn:Hs.
  - destruct j as [| | | | |deps]; try (right; by eexists).
    apply (IH _ (λ k, match deps !! k with
                      | Some v => Some (section, v)
                      | None => start k
                      end)).
    intros k. rewrite note_dependencies_lookup
      by apply NoDup_fst_map_to_list.
    rewrite list_to_map_to_list, Hfound.
    destruct (deps !! k), (bool_decide (k ∈ target_packages)); done.
  - by apply (IH _ start).
Qed.

(** A manifest that parses to something else than an object leaves the
    result empty, whether the loop finishes or raises. *)
Lemma scan_section_not_object (data : json) section (found : found_map) :
  (∀ fields', data ≠ JObj fields') →
  (scan_section target_packages package_json_path data section found).1
  = found.
Proof.
  intros Hdata. unfold scan_section, bind, lift.
  destruct data as [| | |s|l|fields']; simpl; try done.
  - by destruct (contains section s).
  - by destruct (existsb (is_str section) l).
  - by destruct (Hdata fields').
Qed.

End ManifestScan.

(** What the loop over [dep_sections] holds at its end is the listing
    of the last of the four classes, in the order dependencies,
    devDependencies, peerDependencies, optionalDependencies. *)
Lemma last_listing_unfold (fields : gmap string json) (k : string) :
  last_listing fields k = last_class_listing fields k.
Proof.
  unfold last_listing, last_listing_from, last_class_listing, dep_sections.
  cbn [foldl].
  destruct (listing fields "optionalDependencies" k),
           (listing fields "peerDependencies" k),
           (listing fields "devDependencies" k),
           (listing fields "dependencies" k); done.
Qed.

(** The retained reference, by what reading the manifest gives and
    what the loop holds at its end. *)
Lemma retained_reference_load (fs : node) (T : gset string) (p : path)
    (k : string) :
  retained_reference fs T p k =
    match load_json fs p with
    | Ok (JObj fields) =>
        if bool_decide (k ∈ T)
        then reference_of fields p <$> last_listing fields k
        else None
    | _ => None
    end.
Proof.
  unfold retained_reference, load_json.
  destruct (lookup_node fs p) as [[[| | | | |[| | | | |fields]]|]|]; try done.
  destruct (bool_decide _); [|done].
  pose proof (last_listing_unfold fields k) as Hlast.
  set (held := last_listing fields k) in *. rewrite Hlast.
  by destruct (last_class_listing fields k) as [[section version]|].
Qed.

(** Whatever a manifest scan returns, it is the map
    [retained_reference]: empty unless the manifest parses to an
    object, and then with the last listing of every target. *)
Lemma scan_package_json_lookup (fs : node) (T : gset string) (p : path)
    (found : gmap string dependency_reference) :
  scan_package_json fs T p = Ok found →
  ∀ k, found !! k = retained_reference fs T p k.
Proof.
  intros Hrun k. rewrite retained_reference_load. revert Hrun k.
  unfold scan_package_json, catch, bind, lift.
  destruct (load_json fs p) as [data|e].
  - assert ((∃ fields, data = JObj fields)
            ∨ ¬ (∃ fields, data = JObj fields)) as [[fields ->]|Hdata].
    { destruct data; try (right; by intros [? ?]). left. eauto. }
    + destruct (scan_sections_cases T p fields dep_sections ∅ (λ _, None))
        as [(found' & -> & Hfound)|(found' & ->)].
      * intros k. rewrite lookup_empty. by destruct (bool_decide _).
      * by intros [= <-].
      * done.
    + assert ((for_each (scan_section T p data) dep_sections ∅).1 = ∅)
        as Hempty.
      { apply (for_each_invariant (λ f, f = ∅)); [|done].
        intros section s0 _ ->. apply scan_section_not_object.
        intros fields ->. apply Hdata. eauto. }
      destruct (for_each _ dep_sections ∅) as [s' [[]|e]]; simpl in Hempty;
        subst s'.
      * intros [= <-] k. rewrite lookup_empty.
        destruct data; try done. destruct Hdata. eauto.
      * destruct (caught_by_reader e); [|done]. intros [= <-] k.
        rewrite lookup_empty. destruct data; try done. destruct Hdata. eauto.
  - destruct (caught_by_reader e); [|done]. intros [= <-] k.
    by rewrite lookup_empty.
Qed.


Lemma listing_object (fields : gmap string json) (section k : string) v :
  listing fields section k = Some v →
  ∃ deps, fields !! section = Some (JObj deps).
Proof.
  unfold listing. destruct (fields !! section) as [[]|]; try done. eauto.
Qed.

(** C10.  The scan of a manifest keeps at most one reference per
    identifier, being a map on identifiers.  Whenever it returns, the
    entry of every identifier is [retained_reference]: for a target
    identifier of a manifest that parses to an object, the reference
    that carries the class and version of the last of the four
    classes, in the order dependencies, devDependencies,
    peerDependencies, optionalDependencies, that lists it; no entry
    when none of the four lists it, and none for identifiers outside
    the target set.  And it returns on every manifest that parses to
    an object in which each of the four sections, where present, is an
    object. *)
Theorem manifest_keeps_last_listing
    (fs : node) (target_packages : gset string) (package_json_path : path) :
  (∀ found,
     scan_package_json fs target_packages package_json_path = Ok found →
     ∀ k, found !! k =
          retained_reference fs target_packages package_json_path k)
  ∧ (∀ fields,
       lookup_node fs package_json_path = Some (File (Parsed (JObj fields))) →
       sections_are_objects fields
         ["dependencies"; "devDependencies"; "peerDependencies";
          "optionalDependencies"] →
       ∃ found,
         scan_package_json fs target_packages package_json_path = Ok found).
Proof.
  split.
  - apply scan_package_json_lookup.
  - intros fields Hlookup Hobj.
    assert (load_json fs package_json_path = Ok (JObj fields)) as Hload.
    { unfold load_json. by rewrite Hlookup. }
    destruct (scan_package_json_object fs target_packages package_json_path
                fields Hload Hobj) as (found & Hrun & _).
    by exists found.
Qed.

Lemma fs_four_classes_sections :
  sections_are_objects four_classes_fields
    ["dependencies"; "devDependencies"; "peerDependencies";
     "optionalDependencies"].
Proof.
  intros section j Hs Hj.
  repeat (apply elem_of_cons in Hs as [->|Hs]);
    [vm_compute in Hj; injection Hj as <-; eauto ..|].
  by apply elem_of_nil in Hs.
Defined.

Lemma manifest_keeps_last_listing_witness :
  ∃ found,
    scan_package_json fs_four_classes {["left-pad"]} ["app"; "package.json"]
    = Ok found
    ∧ ∀ k, found !! k =
           retained_reference fs_four_classes {["left-pad"]}
             ["app"; "package.json"] k.
Proof.
  destruct (proj2 (manifest_keeps_last_listing fs_four_classes {["left-pad"]}
                     ["app"; "package.json"])
              four_classes_fields eq_refl fs_four_classes_sections)
    as [found Hrun].
  exists found. split; [exact Hrun|].
  exact (proj1 (manifest_keeps_last_listing fs_four_classes {["left-pad"]}
                  ["app"; "package.json"]) found Hrun).
Defined.

(** C2, as the code has it.  A manifest that lists a target identifier
    in each of the four classes yields one reference for it, not four:
    the one tagged optionalDependencies, with the version declared
    there. *)
Theorem four_classes_yield_last_reference
    (fs : node) (target_packages : gset string) (package_json_path : path)
    (fields : gmap string json) (t : string) (v1 v2 v3 v4 : json) :
  load_json fs package_json_path = Ok (JObj fields) →
  t ∈ target_packages →
  listing fields "dependencies" t = Some v1 →
  listing fields "devDependencies" t = Some v2 →
  listing fields "peerDependencies" t = Some v3 →
  listing fields "optionalDependencies" t = Some v4 →
  ∃ found,
    scan_package_json fs target_packages package_json_path = Ok found
    ∧ found !! t =
        Some (DependencyReference v4 "optionalDependencies"
                (default (JStr "unknown") (fields !! "name"))
                package_json_path).
Proof.
  intros Hload Ht H1 H2 H3 H4.
  assert (sections_are_objects fields dep_sections) as Hobj.
  { intros section j Hs Hj. unfold dep_sections in Hs.
    repeat (apply elem_of_cons in Hs as [->|Hs]);
      [| | | |by apply elem_of_nil in Hs].
    - apply listing_object in H1 as [deps H1]. rewrite H1 in Hj.
      injection Hj as <-. eauto.
    - apply listing_object in H2 as [deps H2]. rewrite H2 in Hj.
      injection Hj as <-. eauto.
    - apply listing_object in H3 as [deps H3]. rewrite H3 in Hj.
      injection Hj as <-. eauto.
    - pose proof H4 as H4'. apply listing_object in H4' as [deps H4'].
      rewrite H4' in Hj. injection Hj as <-. eauto. }
  destruct (scan_package_json_object fs target_packages package_json_path
              fields Hload Hobj) as (found & Hrun & Hfound).
  exists found. split; [done|].
  rewrite Hfound, bool_decide_eq_true_2 by done.
  pose proof (last_listing_unfold fields t) as Hlast.
  set (held := last_listing fields t) in *. rewrite Hlast.
  unfold last_class_listing. by rewrite H4.
Qed.

Lemma four_classes_yield_last_reference_witness :
  ∃ found,
    scan_package_json fs_four_classes {["left-pad"]} ["app"; "package.json"]
    = Ok found
    ∧ found !! "left-pad" =
        Some (DependencyReference (JStr "^1.3.0") "optionalDependencies"
                (JStr "app") ["app"; "package.json"]).
Proof.
  apply (four_classes_yield_last_reference fs_four_classes {["left-pad"]}
           ["app"; "package.json"] four_classes_fields "left-pad"
           (JStr "^1.0.0") (JStr "^1.1.0") (JStr "^1.2.0") (JStr "^1.3.0")).
  - reflexivity.
  - vm_compute. reflexivity.
  - reflexivity.
  - reflexivity.
  - reflexivity.
  - reflexivity.
Defined.

(** C2 as stated fails: on a manifest that lists [left-pad] in all four
    classes the scan returns a single entry, tagged
    optionalDependencies. *)
Lemma four_classes_not_four_references :
  ∃ found,
    scan_package_json fs_four_classes {["left-pad"]} ["app"; "package.json"]
    = Ok found
    ∧ map_to_list found =
        [("left-pad",
          DependencyReference (JStr "^1.3.0") "optionalDependencies"
                              (JStr "app") ["app"; "package.json"])].
Proof. eexists. split; [vm_compute; reflexivity | reflexivity]. Qed.

(** ** The store scan *)

Lemma assoc_elem_of (c : string) (es : list (string * node)) (n : node) :
  assoc c es = Some n → c ∈ es.*1.
Proof.
  induction es as [|[c' n'] es IH]; [done|]. simpl.
  destruct (decide (c = c')) as [->|]; [intros _; by left|].
  intros H. right. by apply IH.
Qed.

Lemma lookup_node_joinpath (fs : node) (p : path) (c : string) :
  lookup_node fs (p // c) =
    match lookup_node fs p with
    | Some (Dir _ es) => assoc c es
    | _ => None
    end.
Proof.
  unfold joinpath. revert fs. induction p as [|d p IH]; intros fs; simpl.
  - destruct fs as [|r es]; [done|]. by destruct (assoc c es).
  - destruct fs as [|r es]; [done|].
    destruct (assoc d es) as [n|]; [apply IH | done].
Qed.

Section StoreScan.
Variable fs : node.
Variable target_packages : gset string.
Variable node_modules_path : path.

Local Abbreviation found_map := (gmap string installed_package).
Local Abbreviation extends := (store_extends target_packages node_modules_path).

Lemma extends_refl (found : found_map) : extends found found.
Proof. intros k. by left. Qed.

Lemma extends_trans (f1 f2 f3 : found_map) :
  extends f1 f2 → extends f2 f3 → extends f1 f3.
Proof.
  intros H12 H23 k. destruct (H23 k) as [->|?]; [apply H12 | by right].
Qed.

Lemma extends_insert (found : found_map) k r :
  store_record target_packages node_modules_path k r →
  extends found (<[k := r]> found).
Proof.
  intros Hr k'. destruct (decide (k = k')) as [<-|Hne].
  - right. exists r. by rewrite lookup_insert_eq.
  - left. by rewrite lookup_insert_ne.
Qed.

Lemma extends_is_Some (found found' : found_map) k :
  extends found found' → is_Some (found !! k) → is_Some (found' !! k).
Proof. intros H Hk. destruct (H k) as [->|(r & -> & _)]; eauto. Qed.

(** The assignment either writes one record or raises, and what it
    raises is no [OSError]. *)
Lemma record_installed_cases (package_dir : path) (key : string)
    (found : found_map) :
  (∃ version parent_project,
      record_installed fs node_modules_path package_dir key found
      = (<[key := InstalledPackage version package_dir parent_project]> found,
         Ok tt))
  ∨ (∃ e, is_OSError e = false
          ∧ record_installed fs node_modules_path package_dir key found
            = (found, Raise e)).
Proof.
  unfold record_installed, bind, lift, modify.
  destruct (get_package_version fs package_dir) as [v|e] eqn:Hv.
  - destruct (find_parent_project fs node_modules_path) as [pp|e] eqn:Hp.
    + left. eauto.
    + right. exists e. split; [by eapply find_parent_project_raise | done].
  - right. exists e. split; [by eapply get_package_version_raise | done].
Qed.

Lemma record_installed_extends package_dir key (found : found_map) :
  (∀ version parent_project,
      store_record target_packages node_modules_path key
        (InstalledPackage version package_dir parent_project)) →
  extends found
    (record_installed fs node_modules_path package_dir key found).1.
Proof.
  intros Hrec.
  destruct (record_installed_cases package_dir key found)
    as [(v & pp & ->)|(e & _ & ->)]; simpl.
  - by apply extends_insert.
  - apply extends_refl.
Qed.

Lemma record_installed_raise package_dir key (found found' : found_map) e :
  record_installed fs node_modules_path package_dir key found
  = (found', Raise e) → is_OSError e = false.
Proof.
  intros H.
  destruct (record_installed_cases package_dir key found)
    as [(v & pp & H')|(e' & He & H')]; rewrite H' in H; [done|].
  by injection H as _ <-.
Qed.

Lemma record_installed_ok package_dir key (found found' : found_map) :
  record_installed fs node_modules_path package_dir key found
  = (found', Ok tt) → is_Some (found' !! key).
Proof.
  intros H.
  destruct (record_installed_cases package_dir key found)
    as [(v & pp & H')|(e' & He & H')]; rewrite H' in H; [|done].
  injection H as <-. rewrite lookup_insert_eq. eauto.
Qed.

(** One child of a scope directory. *)
Lemma scan_scoped_package_extends scope child (found : found_map) :
  String.prefix "@" scope = true →
  extends found
    (scan_scoped_package fs target_packages node_modules_path
       (node_modules_path // scope) (node_modules_path // scope // child)
       found).1.
Proof.
  intros Hscope. unfold scan_scoped_package. rewrite !name_joinpath.
  destruct (is_dir fs _); [|apply extends_refl].
  destruct (bool_decide _) eqn:Ht; [|apply extends_refl].
  apply bool_decide_eq_true in Ht.
  apply record_installed_extends. intros v pp. split; [done|].
  right. exists scope, child. done.
Qed.

Lemma scan_scoped_package_raise item scoped_package
    (found found' : found_map) e :
  scan_scoped_package fs target_packages node_modules_path item
    scoped_package found = (found', Raise e) →
  is_OSError e = false.
Proof.
  unfold scan_scoped_package.
  destruct (is_dir fs _); [|done].
  destruct (bool_decide _); [|done].
  apply record_installed_raise.
Qed.

(** One child of the store. *)
Lemma scan_item_extends item (found : found_map) :
  extends found
    (scan_item fs target_packages node_modules_path
       (node_modules_path // item) found).1.
Proof.
  unfold scan_item. rewrite name_joinpath.
  destruct (is_dir fs _); simpl; [|apply extends_refl].
  destruct (String.prefix "@" item) eqn:Hscope.
  - unfold catch, bind, lift.
    destruct (iterdir fs (node_modules_path // item)) as [children|e] eqn:Hit.
    + assert (extends found
                (for_each (scan_scoped_package fs target_packages
                             node_modules_path (node_modules_path // item))
                          children found).1) as Hloop.
      { apply for_each_invariant; [|apply extends_refl].
        intros x s0 Hx Hs0. eapply extends_trans; [done|].
        unfold iterdir in Hit.
        destruct (lookup_node fs (node_modules_path // item))
          as [[|[] es]|]; try done.
        injection Hit as <-. apply list_elem_of_fmap in Hx as [en [-> _]].
        by apply scan_scoped_package_extends. }
      destruct (for_each _ children found) as [s' [[]|e]]; simpl in *;
        [done|].
      destruct (caught_by_lister e); done.
    + destruct (caught_by_lister e); apply extends_refl.
  - destruct (bool_decide _) eqn:Ht; [|apply extends_refl].
    apply bool_decide_eq_true in Ht.
    apply record_installed_extends. intros v pp. split; [done|].
    left. exists item. done.
Qed.

Lemma scan_item_raise item (found found' : found_map) e :
  scan_item fs target_packages node_modules_path item found
  = (found', Raise e) → is_OSError e = false.
Proof.
  unfold scan_item.
  destruct (is_dir fs _); simpl; [|done].
  destruct (String.prefix "@" (name item)).
  - unfold catch.
    destruct (bind _ _ found) as [s' [[]|e']]; [done|].
    unfold caught_by_lister. destruct (is_OSError e') eqn:He'; [done|].
    by intros [= _ <-].
  - destruct (bool_decide _); [|done]. apply record_installed_raise.
Qed.

End StoreScan.

Section StoreScanResult.
Variable fs : node.
Variable target_packages : gset string.
Variable node_modules_path : path.

Local Abbreviation found_map := (gmap string installed_package).

(** Whatever the store scan returns was written by its loop. *)
Lemma scan_node_modules_extends (found : found_map) :
  scan_node_modules fs target_packages node_modules_path = Ok found →
  store_extends target_packages node_modules_path ∅ found.
Proof.
  unfold scan_node_modules, catch.
  destruct (path_exists fs node_modules_path); simpl.
  2: { intros [= <-]. apply extends_refl. }
  unfold bind, lift.
  destruct (iterdir fs node_modules_path) as [items|e] eqn:Hit.
  - assert (store_extends target_packages node_modules_path ∅
              (for_each (scan_item fs target_packages node_modules_path)
                        items ∅).1) as Hloop.
    { apply for_each_invariant; [|apply extends_refl].
      intros x s0 Hx Hs0. eapply extends_trans; [done|].
      unfold iterdir in Hit.
      destruct (lookup_node fs node_modules_path) as [[|[] es]|]; try done.
      injection Hit as <-. apply list_elem_of_fmap in Hx as [en [-> _]].
      apply scan_item_extends. }
    destruct (for_each _ items ∅) as [s' [[]|e]]; simpl in *.
    + by intros [= <-].
    + destruct (caught_by_lister e); [|done]. by intros [= <-].
  - destruct (caught_by_lister e); [|done]. intros [= <-]. apply extends_refl.
Qed.

(** On a readable store, a scan that returns has run its loop to the
    end. *)
Lemma scan_node_modules_run (found : found_map) es :
  lookup_node fs node_modules_path = Some (Dir true es) →
  scan_node_modules fs target_packages node_modules_path = Ok found →
  for_each (scan_item fs target_packages node_modules_path)
           (map (λ e, node_modules_path // e.1) es) ∅ = (found, Ok tt).
Proof.
  intros Hl. unfold scan_node_modules, catch, path_exists, iterdir.
  rewrite Hl. rewrite bool_decide_eq_true_2 by eauto. simpl.
  unfold bind, lift.
  destruct (for_each _ _ ∅) as [s' [[]|e]] eqn:Hrun.
  - by intros [= <-].
  - apply for_each_raise with (R := λ e, is_OSError e = false) in Hrun.
    + unfold caught_by_lister. by rewrite Hrun.
    + intros x s0 s1 e0 _. apply scan_item_raise.
Qed.

(** Every record of a store scan is one the store may hold. *)
Lemma scan_node_modules_records (found : found_map) k r :
  scan_node_modules fs target_packages node_modules_path = Ok found →
  found !! k = Some r →
  store_record target_packages node_modules_path k r.
Proof.
  intros Hrun Hk. destruct (scan_node_modules_extends found Hrun k)
    as [Hnone|(r' & Hr' & Hrec)].
  - by rewrite Hk, lookup_empty in Hnone.
  - rewrite Hk in Hr'. by injection Hr' as <-.
Qed.

(** A scoped entry whose combined identifier is a target is recorded. *)
Lemma scan_node_modules_scoped_found (found : found_map) es cs r gs
    (scope child : string) :
  lookup_node fs node_modules_path = Some (Dir true es) →
  lookup_node fs (node_modules_path // scope) = Some (Dir true cs) →
  lookup_node fs (node_modules_path // scope // child) = Some (Dir r gs) →
  String.prefix "@" scope = true →
  scope +:+ "/" +:+ child ∈ target_packages →
  scan_node_modules fs target_packages node_modules_path = Ok found →
  is_Some (found !! (scope +:+ "/" +:+ child)).
Proof.
  intros Hstore Hscope Hchild Hat Ht Hrun.
  pose proof (scan_node_modules_run found es Hstore Hrun) as Hloop.
  assert (scope ∈ es.*1) as Hin_scope.
  { rewrite lookup_node_joinpath, Hstore in Hscope.
    by apply assoc_elem_of in Hscope. }
  assert (child ∈ cs.*1) as Hin_child.
  { rewrite lookup_node_joinpath, Hscope in Hchild.
    by apply assoc_elem_of in Hchild. }
  eapply (for_each_establishes
            (λ f : found_map, is_Some (f !! (scope +:+ "/" +:+ child)))
            _ _ (node_modules_path // scope));
    [exact Hloop| | |].
  - apply list_elem_of_fmap in Hin_scope as [e [-> He]].
    apply list_elem_of_fmap. eauto.
  - intros s0 s1. unfold scan_item, is_dir. rewrite name_joinpath, Hscope, Hat.
    simpl. unfold catch, bind, lift, iterdir. rewrite Hscope.
    destruct (for_each _ _ s0) as [s' [[]|e]] eqn:Hinner.
    + intros [= <-].
      eapply (for_each_establishes
                (λ f : found_map, is_Some (f !! (scope +:+ "/" +:+ child)))
                _ _ (node_modules_path // scope // child));
        [exact Hinner| | |].
      * apply list_elem_of_fmap in Hin_child as [e [-> He]].
        apply list_elem_of_fmap. eauto.
      * intros s2 s3. unfold scan_scoped_package, is_dir.
        rewrite !name_joinpath, Hchild. simpl.
        rewrite bool_decide_eq_true_2 by done.
        apply record_installed_ok.
      * intros y s2 Hy. apply extends_is_Some with
          (target_packages := target_packages)
          (node_modules_path := node_modules_path).
        apply list_elem_of_fmap in Hy as [en [-> _]].
        by apply scan_scoped_package_extends.
    + apply for_each_raise with (R := λ e, is_OSError e = false) in Hinner.
      * unfold caught_by_lister. by rewrite Hinner.
      * intros x s2 s3 e0 _. apply scan_scoped_package_raise.
  - intros y s0 Hy. apply extends_is_Some with
      (target_packages := target_packages)
      (node_modules_path := node_modules_path).
    apply list_elem_of_fmap in Hy as [en [-> _]].
    apply scan_item_extends.
Qed.

End StoreScanResult.

(** *** When the store scan returns *)

Lemma for_each_total {S X} (body : X → M S unit) (xs : list X) :
  (∀ x s, ∃ s', body x s = (s', Ok tt)) →
  ∀ s, ∃ s', for_each body xs s = (s', Ok tt).
Proof.
  intros Hbody. induction xs as [|x xs IH]; intros s; [by exists s|].
  simpl. unfold bind. destruct (Hbody x s) as [s1 ->]. apply IH.
Qed.

Section StoreScanTotal.
Variable fs : node.
Variable target_packages : gset string.
Variable node_modules_path : path.
Hypothesis Hmeta : metadata_are_objects fs.

Lemma get_package_version_total (p : path) :
  ∃ v, get_package_version fs p = Ok v.
Proof.
  rewrite get_package_version_cases. pose proof (Hmeta (p // "package.json")).
  destruct (lookup_node fs (p // "package.json")) as [[[| | | | |[]]|]|]; eauto;
    done.
Qed.

Lemma find_parent_project_total (p : path) :
  ∃ v, find_parent_project fs p = Ok v.
Proof.
  unfold find_parent_project, path_exists, load_json.
  pose proof (Hmeta (parent p // "package.json")).
  destruct (lookup_node fs (parent p // "package.json"))
    as [[[| | | | |[]]|]|]; simpl; eauto; done.
Qed.

Lemma record_installed_total package_dir key
    (found : gmap string installed_package) :
  ∃ found',
    record_installed fs node_modules_path package_dir key found
    = (found', Ok tt).
Proof.
  unfold record_installed, bind, lift, modify.
  destruct (get_package_version_total package_dir) as [v ->].
  destruct (find_parent_project_total node_modules_path) as [pp ->]. eauto.
Qed.

Lemma scan_item_total item (found : gmap string installed_package) :
  ∃ found',
    scan_item fs target_packages node_modules_path item found
    = (found', Ok tt).
Proof.
  unfold scan_item. destruct (is_dir fs item); simpl; [|by eexists].
  destruct (String.prefix "@" (name item)).
  - unfold catch, bind, lift.
    destruct (iterdir fs item) as [children|e] eqn:Hit.
    + destruct (for_each_total
                  (scan_scoped_package fs target_packages node_modules_path
                     item) children) with (s := found) as [found' ->];
        [|by eexists].
      intros x s. unfold scan_scoped_package.
      destruct (is_dir fs x); [|by eexists].
      destruct (bool_decide _); [|by eexists].
      apply record_installed_total.
    + unfold iterdir in Hit.
      destruct (lookup_node fs item) as [[|[] es]|]; try done;
        injection Hit as <-; by eexists.
  - destruct (bool_decide _); [|by eexists]. apply record_installed_total.
Qed.

(** With such metadata the store scan returns a map. *)
Lemma scan_node_modules_total :
  ∃ found, scan_node_modules fs target_packages node_modules_path = Ok found.
Proof.
  unfold scan_node_modules, catch.
  destruct (path_exists fs node_modules_path); simpl; [|by eexists].
  unfold bind, lift.
  destruct (iterdir fs node_modules_path) as [items|e] eqn:Hit.
  - destruct (for_each_total
                (scan_item fs target_packages node_modules_path) items)
      with (s := (∅ : gmap string installed_package)) as [found' ->];
      [|by eexists].
    intros x s. apply scan_item_total.
  - unfold iterdir in Hit.
    destruct (lookup_node fs node_modules_path) as [[|[] es]|]; try done;
      injection Hit as <-; by eexists.
Qed.

End StoreScanTotal.

Lemma string_length_append (s1 s2 : string) :
  String.length (s1 +:+ s2) = String.length s1 + String.length s2.
Proof. induction s1 as [|a s1 IH]; simpl; [done | by rewrite IH]. Qed.

(** *** Names and combined identifiers *)

Lemma prefix_at (s : string) :
  String.prefix "@" s = true ↔ ∃ rest, s = String "@" rest.
Proof.
  destruct s as [|a s]; cbn -[ascii_dec].
  - split; [done | by intros [? ?]].
  - destruct (ascii_dec "@" a) as [<-|Hne].
    + split; [eauto | by destruct s].
    + split; [done | intros [rest Heq]; congruence].
Qed.

Lemma has_char_app (c : ascii) (a b : string) :
  has_char c (a +:+ b) = has_char c a || has_char c b.
Proof.
  induction a as [|x a IH]; simpl; [done|]. rewrite IH.
  by destruct (Ascii.eqb x c).
Qed.

(** A combined identifier holds a slash, and begins with [@] when the
    scope name does. *)
Lemma has_char_combined (scope child : string) :
  has_char "/" (scope +:+ "/" +:+ child) = true.
Proof. rewrite has_char_app. apply orb_true_iff. by right. Qed.

Lemma prefix_at_combined (scope rest : string) :
  String.prefix "@" scope = true →
  String.prefix "@" (scope +:+ rest) = true.
Proof.
  intros Hat. apply prefix_at in Hat as [tail ->].
  apply prefix_at. by exists (tail +:+ rest).
Qed.

(** Two names without a slash are read back from their combined
    identifier. *)
Lemma combined_inj (scope child scope' child' : string) :
  has_char "/" scope = false →
  has_char "/" child = false →
  scope +:+ "/" +:+ child = scope' +:+ "/" +:+ child' →
  scope = scope' ∧ child = child'.
Proof.
  revert scope'. induction scope as [|x scope IH]; intros scope' Hs Hc Heq.
  - change ("" +:+ "/" +:+ child) with (String "/" child) in Heq.
    destruct scope' as [|y scope'].
    + change ("" +:+ "/" +:+ child') with (String "/" child') in Heq.
      by injection Heq as ->.
    + change (String y scope' +:+ "/" +:+ child')
        with (String y (scope' +:+ "/" +:+ child')) in Heq.
      injection Heq as <- ->. by rewrite has_char_combined in Hc.
  - simpl in Hs. apply orb_false_iff in Hs as [Hx Hs].
    change (String x scope +:+ "/" +:+ child)
      with (String x (scope +:+ "/" +:+ child)) in Heq.
    destruct scope' as [|y scope'].
    + change ("" +:+ "/" +:+ child') with (String "/" child') in Heq.
      injection Heq as -> _. by rewrite Ascii.eqb_refl in Hx.
    + change (String y scope' +:+ "/" +:+ child')
        with (String y (scope' +:+ "/" +:+ child')) in Heq.
      injection Heq as <- Heq.
      by destruct (IH scope' Hs Hc Heq) as [-> ->].
Qed.




(** ** Keys of the result maps *)

Lemma keys_in_empty {V} (T : gset string) : keys_in T (∅ : gmap string V).
Proof. intros k [v Hv]. by rewrite lookup_empty in Hv. Qed.

Lemma keys_in_insert {V} (T : gset string) (m : gmap string V) k v :
  k ∈ T → keys_in T m → keys_in T (<[k := v]> m).
Proof.
  intros Hk Hm k' Hk'. destruct (decide (k = k')) as [<-|Hne]; [done|].
  apply Hm. by rewrite lookup_insert_ne in Hk'.
Qed.

Lemma keys_in_update {V} (T : gset string) (d other : gmap string V) :
  keys_in T d → keys_in T other → keys_in T (update d other).
Proof.
  intros Hd Ho k. rewrite lookup_update.
  destruct (other !! k) eqn:Hk; [intros _; apply Ho; eauto | apply Hd].
Qed.

Lemma scan_node_modules_keys (fs : node) (T : gset string) (p : path) found :
  scan_node_modules fs T p = Ok found → keys_in T found.
Proof.
  intros Hrun k [r Hr].
  by destruct (scan_node_modules_records _ _ _ _ _ _ Hrun Hr).
Qed.

(** Every record of a manifest scan stands under a target and names
    the manifest it was read from. *)
Lemma scan_section_records (T : gset string) (p : path) (data : json)
    (section : string) (found : gmap string dependency_reference) :
  manifest_records T p found →
  manifest_records T p (scan_section T p data section found).1.
Proof.
  intros Hfound. unfold scan_section, bind, lift.
  destruct (py_in section data) as [[]|]; try done.
  destruct (py_getitem data section) as [deps|]; try done.
  destruct (py_items deps) as [items|]; try done.
  apply for_each_invariant; [|done].
  intros [k v] s0 _ Hs0. unfold scan_dependency, bind, lift, modify. simpl.
  destruct (bool_decide (k ∈ T)) eqn:Hk; [|done].
  apply bool_decide_eq_true in Hk.
  destruct (py_get data "name" (JStr "unknown")); [|done].
  simpl. intros k' r'. destruct (decide (k = k')) as [<-|Hne].
  - rewrite lookup_insert_eq. by intros [= <-].
  - rewrite lookup_insert_ne by done. apply Hs0.
Qed.

Lemma scan_package_json_records (fs : node) (T : gset string) (p : path)
    found :
  scan_package_json fs T p = Ok found → manifest_records T p found.
Proof.
  assert (manifest_records T p ∅) as H0.
  { intros k r Hr. by rewrite lookup_empty in Hr. }
  unfold scan_package_json, catch, bind, lift.
  destruct (load_json fs p) as [data|e].
  - pose proof (for_each_invariant (manifest_records T p)
                  (scan_section T p data) dep_sections ∅) as Hloop.
    destruct (for_each _ dep_sections ∅) as [s' [[]|e]]; simpl in *.
    + intros [= <-]. apply Hloop; [|done].
      intros. by apply scan_section_records.
    + destruct (caught_by_reader e); [|done]. intros [= <-].
      apply Hloop; [|done]. intros. by apply scan_section_records.
  - destruct (caught_by_reader e); [|done]. by intros [= <-].
Qed.

Lemma scan_package_json_keys (fs : node) (T : gset string) (p : path) found :
  scan_package_json fs T p = Ok found → keys_in T found.
Proof.
  intros Hrun k [r Hr].
  by destruct (scan_package_json_records _ _ _ _ Hrun _ _ Hr).
Qed.

(** ** Walking the tree *)

(** Induction on a directory tree, with the property known for every
    entry of a directory. *)
Lemma node_tree_ind (P : node → Prop) :
  (∀ c, P (File c)) →
  (∀ r es, Forall (λ e, P e.2) es → P (Dir r es)) →
  ∀ n, P n.
Proof.
  intros Hfile Hdir. fix IH 1. intros [c|r es]; [apply Hfile|].
  apply Hdir. induction es as [|[d child] es IHes]; constructor.
  - apply IH.
  - exact IHes.
Qed.

Lemma walk_unfold (fs : node) (T : gset string) (top : path) (n : node) :
  walk fs T top n =
    match n with
    | File _ => ret tt
    | Dir false _ => ret tt
    | Dir true entries =>
        bind (visit fs T top (nondirs entries))
             (λ keep : bool, if keep then walk_dirs fs T top entries
                             else ret tt)
    end.
Proof. destruct n as [|[] es]; reflexivity. Qed.

Section WalkInvariant.
Variable fs : node.
Variable target_packages : gset string.

(** [P] holds of the state throughout a walk when every run of the loop
    body preserves it; the body is only run at directories in [E],
    where [E] holds of the children of every directory the body leaves
    open. *)
Variable P : worker_state → Prop.
Variable E : path → Prop.
Hypothesis visit_preserves :
  ∀ top files st, E top → P st → P (visit fs target_packages top files st).1.
Hypothesis visit_opens :
  ∀ top files st st' d,
    E top → visit fs target_packages top files st = (st', Ok true) →
    E (top // d).

Lemma walk_invariant (n : node) :
  ∀ top st, E top → P st → P (walk fs target_packages top n st).1.
Proof.
  induction n as [c|r es IH] using node_tree_ind; intros top st Htop Hst;
    [done|].
  rewrite walk_unfold. destruct r; [|done].
  unfold bind.
  pose proof (visit_preserves top (nondirs es) st Htop Hst) as Hvisit.
  destruct (visit fs target_packages top (nondirs es) st)
    as [st1 [keep|e]] eqn:Hv; simpl in Hvisit; [|done].
  destruct keep; [|done].
  assert (∀ d, E (top // d)) as Hopen.
  { intros d. by eapply visit_opens. }
  clear Hv Hst. revert st1 Hvisit.
  induction es as [|[d child] es IHes]; intros st1 Hst1; [done|].
  apply Forall_cons in IH as [IHchild IH]. simpl in IHchild.
  simpl. unfold bind.
  assert (P ((if is_dir_node child
              then walk fs target_packages (top // d) child
              else ret tt) st1).1) as Hchild.
  { destruct (is_dir_node child); [by apply IHchild | done]. }
  destruct ((if is_dir_node child
             then walk fs target_packages (top // d) child
             else ret tt) st1) as [st2 [[]|e]]; [|done].
  by apply IHes.
Qed.

End WalkInvariant.

(** The loop body, branch by branch. *)
Lemma visit_unfold (fs : node) (T : gset string) (top : path)
    (files : list string) (st : worker_state) :
  visit fs T top files st =
    if should_skip_directory fs top then (st, Ok false)
    else if bool_decide (top ∈ scanned_dirs st) then (st, Ok true)
    else if bool_decide (name top = "node_modules") then
      match scan_node_modules fs T top with
      | Ok found => (update_installed found (add_scanned top st), Ok false)
      | Raise e => (add_scanned top st, Raise e)
      end
    else if bool_decide ("package.json" ∈ files) then
      match scan_package_json fs T (top // "package.json") with
      | Ok found_deps =>
          (update_dependencies found_deps (add_scanned top st),
           Ok (negb (bool_decide (10 < length (parts top)))))
      | Raise e => (add_scanned top st, Raise e)
      end
    else (add_scanned top st,
          Ok (negb (bool_decide (10 < length (parts top))))).
Proof.
  unfold visit. destruct (should_skip_directory fs top); [done|].
  unfold bind at 1. unfold get.
  destruct (bool_decide (top ∈ scanned_dirs st)); [done|].
  unfold bind at 1. unfold modify at 1.
  destruct (bool_decide (name top = "node_modules")).
  - unfold bind, lift, modify.
    destruct (scan_node_modules fs T top); done.
  - unfold bind at 1.
    destruct (bool_decide ("package.json" ∈ files)).
    + unfold bind, lift, modify.
      destruct (scan_package_json fs T (top // "package.json")); [|done].
      by destruct (bool_decide (10 < length (parts top))).
    + unfold ret. by destruct (bool_decide (10 < length (parts top))).
Qed.

Lemma visit_keys (fs : node) (T : gset string) top files st :
  state_keys_in T st → state_keys_in T (visit fs T top files st).1.
Proof.
  intros [Hi Hd]. rewrite visit_unfold.
  destruct (should_skip_directory fs top); [done|].
  destruct (bool_decide (top ∈ scanned_dirs st)); [done|].
  destruct (bool_decide (name top = "node_modules")).
  - destruct (scan_node_modules fs T top) as [found|e] eqn:Hs; [|done].
    split; [|done]. simpl. apply keys_in_update; [done|].
    by eapply scan_node_modules_keys.
  - destruct (bool_decide ("package.json" ∈ files)); [|done].
    destruct (scan_package_json fs T (top // "package.json"))
      as [found|e] eqn:Hs; [|done].
    split; [done|]. simpl. apply keys_in_update; [done|].
    by eapply scan_package_json_keys.
Qed.

Lemma scan_directory_worker_keys (fs : node) (T : gset string)
    (root_path : path) (scanned : gset path) :
  state_keys_in T (scan_directory_worker fs T root_path scanned).
Proof.
  unfold scan_directory_worker.
  assert (state_keys_in T (WorkerState ∅ ∅ scanned)) as H0.
  { split; apply keys_in_empty. }
  destruct (lookup_node fs root_path) as [n|]; [|done].
  apply (walk_invariant fs T (state_keys_in T) (λ _, True)); try done.
  intros. by apply visit_keys.
Qed.

Lemma scan_all_keys (fs : node) (T : gset string) (search_paths : list path) :
  keys_in T (res_installed_packages (scan_all fs T search_paths).1)
  ∧ keys_in T (res_dependency_references (scan_all fs T search_paths).1).
Proof.
  unfold scan_all.
  set (step := λ (acc : scan_results * gset path) (root_path : path),
         let st := scan_directory_worker fs T root_path acc.2 in
         (merge acc.1 (installed_packages st, dependency_references st),
          scanned_dirs st)).
  assert (∀ acc,
            keys_in T (res_installed_packages acc.1)
            ∧ keys_in T (res_dependency_references acc.1) →
            keys_in T (res_installed_packages
                         (fold_left step search_paths acc).1)
            ∧ keys_in T (res_dependency_references
                           (fold_left step search_paths acc).1)) as Hfold.
  { induction search_paths as [|root_path search_paths IH];
      intros [results scanned] [Hi Hd]; [done|].
    simpl. apply IH. simpl.
    destruct (scan_directory_worker_keys fs T root_path scanned) as [Hi' Hd'].
    split; by apply keys_in_update. }
  apply Hfold. split; apply keys_in_empty.
Qed.

Lemma built_keys (fs : node) (T : gset string) (results : scan_results) :
  built fs T results →
  keys_in T (res_installed_packages results)
  ∧ keys_in T (res_dependency_references results).
Proof.
  induction 1 as [|results p found _ [Hi Hd] Hs
                  |results p found _ [Hi Hd] Hs
                  |results partial _ [Hi Hd] _ [Hi' Hd']]; simpl.
  - split; apply keys_in_empty.
  - split; apply keys_in_update; try done.
    + by eapply scan_node_modules_keys.
    + apply keys_in_empty.
  - split; apply keys_in_update; try done.
    + apply keys_in_empty.
    + by eapply scan_package_json_keys.
  - split; by apply keys_in_update.
Qed.

(** C4.  Every key of the installed-packages map and of the
    dependency-references map is a target: in any result built from the
    empty one by store scans, manifest scans and merges, and in
    particular in the result [scan_computer] returns for any list of
    roots. *)
Theorem result_keys_are_targets (fs : node) (target_packages : gset string) :
  (∀ results,
     built fs target_packages results →
     keys_in target_packages (res_installed_packages results)
     ∧ keys_in target_packages (res_dependency_references results))
  ∧ (∀ search_paths,
       keys_in target_packages
         (res_installed_packages
            (scan_computer fs target_packages search_paths).1)
       ∧ keys_in target_packages
           (res_dependency_references
              (scan_computer fs target_packages search_paths).1)).
Proof.
  split.
  - apply built_keys.
  - intros search_paths. apply scan_all_keys.
Qed.

Lemma result_keys_are_targets_witness :
  keys_in {["@ctrl/tinycolor"; "left-pad"]}
    (res_installed_packages
       (merge (ScanResults ∅ ∅)
          ({["@ctrl/tinycolor" :=
               InstalledPackage (JStr "4.1.1")
                 ["app"; "node_modules"; "@ctrl"; "tinycolor"] (JStr "app");
             "left-pad" :=
               InstalledPackage (JStr "1.3.0")
                 ["app"; "node_modules"; "left-pad"] (JStr "app")]}, ∅)))
  ∧ keys_in {["@ctrl/tinycolor"; "left-pad"]}
      (res_dependency_references
         (merge (ScanResults ∅ ∅)
            ({["@ctrl/tinycolor" :=
                 InstalledPackage (JStr "4.1.1")
                   ["app"; "node_modules"; "@ctrl"; "tinycolor"] (JStr "app");
               "left-pad" :=
                 InstalledPackage (JStr "1.3.0")
                   ["app"; "node_modules"; "left-pad"] (JStr "app")]}, ∅))).
Proof.
  apply (proj1 (result_keys_are_targets fs_store
                  {["@ctrl/tinycolor"; "left-pad"]})).
  apply (built_store _ _ _ ["app"; "node_modules"]).
  - apply built_empty.
  - vm_compute. reflexivity.
Defined.


(** ** Skipped directories *)

Lemma prefix_of_snoc (d q : path) (c : string) :
  d `prefix_of` q // c → d = q // c ∨ d `prefix_of` q.
Proof.
  intros [k Hk]. unfold joinpath in *.
  destruct k as [|x k _] using rev_ind.
  - left. by rewrite app_nil_r in Hk.
  - right. rewrite app_assoc in Hk. apply app_inj_tail in Hk as [-> _].
    by exists k.
Qed.

Lemma should_skip_deny_list (fs : node) (p : path) :
  should_skip_directory fs p = false → name p ∉ skip_dirs.
Proof.
  unfold should_skip_directory. intros H.
  apply orb_false_iff in H as [H _]. apply orb_false_iff in H as [_ H].
  by apply bool_decide_eq_false in H.
Qed.

Lemma unskipped_from_off_deny_list (fs : node) (root q : path) :
  unskipped_from fs root q → off_deny_list root q.
Proof.
  induction 1 as [Hroot|q c Hq [Hpre IH] Hskip].
  - split; [done|]. intros d Hd1 Hd2.
    assert (d = root) as -> by (by apply (anti_symm prefix)).
    by eapply should_skip_deny_list.
  - split.
    + destruct Hpre as [k ->]. exists (k ++ [c])%list. unfold joinpath.
      by rewrite app_assoc.
    + intros d Hd1 Hd2. apply prefix_of_snoc in Hd2 as [->|Hd2].
      * by eapply should_skip_deny_list.
      * by apply IH.
Qed.

Section WalkSkips.
Variable fs : node.
Variable target_packages : gset string.
Variable root : path.
Variable scanned : gset path.

Lemma entered_unskipped (top : path) :
  entered fs root top → should_skip_directory fs top = false →
  unskipped_from fs root top.
Proof.
  intros [->|(q & d & -> & Hq)] Hskip; [by constructor|].
  by constructor.
Qed.

Lemma visit_walked top files st :
  entered fs root top →
  walked fs root scanned st →
  walked fs root scanned (visit fs target_packages top files st).1.
Proof.
  intros Htop (Hs & Hd & Hi). rewrite visit_unfold.
  destruct (should_skip_directory fs top) eqn:Hskip; [done|].
  destruct (bool_decide (top ∈ scanned_dirs st)); [done|].
  pose proof (entered_unskipped top Htop Hskip) as Hun.
  assert (∀ q, q ∈ scanned_dirs (add_scanned top st) →
               q ∈ scanned ∨ unskipped_from fs root q) as Hs'.
  { intros q. simpl. rewrite elem_of_union, elem_of_singleton.
    intros [->|Hq]; [by right | by apply Hs]. }
  destruct (bool_decide (name top = "node_modules")).
  - destruct (scan_node_modules fs target_packages top) as [found|e] eqn:Hrun;
      [|done].
    split; [done|]. split; [done|]. simpl. intros k r.
    rewrite lookup_update. destruct (found !! k) as [r'|] eqn:Hk; [|apply Hi].
    intros [= <-]. exists top. split; [done|].
    destruct (scan_node_modules_records _ _ _ _ _ _ Hrun Hk)
      as [_ [(item & _ & Hp & _)|(scope & child & _ & Hp & _)]].
    + left. eauto.
    + right. eauto.
  - destruct (bool_decide ("package.json" ∈ files)); [|done].
    destruct (scan_package_json fs target_packages (top // "package.json"))
      as [found|e] eqn:Hrun; [|done].
    split; [done|]. split; [|done]. simpl. intros k r.
    rewrite lookup_update. destruct (found !! k) as [r'|] eqn:Hk; [|apply Hd].
    intros [= <-]. exists top. split; [done|].
    by destruct (scan_package_json_records _ _ _ _ Hrun _ _ Hk).
Qed.

Lemma visit_open_unskipped top files st st' :
  visit fs target_packages top files st = (st', Ok true) →
  should_skip_directory fs top = false.
Proof.
  rewrite visit_unfold.
  destruct (should_skip_directory fs top); [done|done].
Qed.

Lemma scan_directory_worker_walked :
  walked fs root scanned
    (scan_directory_worker fs target_packages root scanned).
Proof.
  unfold scan_directory_worker.
  assert (walked fs root scanned (WorkerState ∅ ∅ scanned)) as H0.
  { split; [by left|]. split; intros k r Hr; simpl in Hr;
      by rewrite lookup_empty in Hr. }
  destruct (lookup_node fs root) as [n|]; [|done].
  apply (walk_invariant fs target_packages (walked fs root scanned)
           (entered fs root)); [| |by left|done].
  - intros. by apply visit_walked.
  - intros top files st st' d Htop Hv. right. exists top, d. split; [done|].
    apply entered_unskipped; [done|]. by eapply visit_open_unskipped.
Qed.

End WalkSkips.

(** C7, as the code has it.  In a walk from a root, every directory the
    walk processes, every manifest a dependency reference comes from
    and every store an installed record comes from is reached from the
    root through directories, the root included, whose names are all
    outside the deny-list.  Directories above the root are not looked
    at, and neither are the names of the entries of a store. *)
Theorem walk_stays_off_deny_list
    (fs : node) (target_packages : gset string) (root : path)
    (scanned : gset path) :
  (∀ q, q ∈ scanned_dirs (scan_directory_worker fs target_packages root scanned) →
        q ∉ scanned → off_deny_list root q)
  ∧ (∀ k r,
       dependency_references
         (scan_directory_worker fs target_packages root scanned) !! k = Some r →
       ∃ q, off_deny_list root q ∧ dr_path r = q // "package.json")
  ∧ (∀ k r,
       installed_packages
         (scan_directory_worker fs target_packages root scanned) !! k = Some r →
       ∃ q, off_deny_list root q ∧ in_store q r).
Proof.
  destruct (scan_directory_worker_walked fs target_packages root scanned)
    as (Hs & Hd & Hi).
  split; [|split].
  - intros q Hq Hnew. destruct (Hs q Hq) as [?|Hun]; [done|].
    by eapply unskipped_from_off_deny_list.
  - intros k r Hr. destruct (Hd k r Hr) as (q & Hun & Hp).
    exists q. split; [by eapply unskipped_from_off_deny_list | done].
  - intros k r Hr. destruct (Hi k r Hr) as (q & Hun & Hp).
    exists q. split; [by eapply unskipped_from_off_deny_list | done].
Qed.

Lemma walk_stays_off_deny_list_witness :
  off_deny_list ["app"] ["app"; "node_modules"].
Proof.
  apply (proj1 (walk_stays_off_deny_list fs_store {["left-pad"]} ["app"] ∅)).
  - by vm_compute.
  - apply not_elem_of_empty.
Defined.


(** C7 as stated fails.  A walk whose root lies inside a directory
    named [build] reports the dependency declared there; and a store
    scan records a target package whose own directory is named [dist]
    and reads the version from inside it. *)
Lemma record_inside_deny_listed_directory :
  "build" ∈ skip_dirs
  ∧ dependency_references
      (scan_directory_worker fs_under_build {["left-pad"]} ["build"; "app"] ∅)
    !! "left-pad"
    = Some (DependencyReference (JStr "^1.0.0") "dependencies" (JStr "app")
              ["build"; "app"; "package.json"])
  ∧ "dist" ∈ skip_dirs
  ∧ installed_packages
      (scan_directory_worker fs_store_dist {["dist"]} ["app"] ∅)
    !! "dist"
    = Some (InstalledPackage (JStr "0.1.0") ["app"; "node_modules"; "dist"]
              (JStr "app")).
Proof.
  split; [by vm_compute|]. split; [by vm_compute|].
  split; by vm_compute.
Qed.

(** ** The depth bound *)

(** The bound as the walker applies it: a directory that is reached
    unvisited with more than 10 parts is processed and none of its
    subdirectories is walked; a plain directory with at most 10 parts
    that is not skipped keeps all its subdirectories. *)
Lemma walk_deep (fs : node) (T : gset string) (top : path)
    (es : list (string * node)) (st : worker_state) :
  10 < length (parts top) → top ∉ scanned_dirs st →
  walk fs T top (Dir true es) st
  = bind (visit fs T top (nondirs es)) (λ _, ret tt) st.
Proof.
  intros Hdeep Hnew. rewrite walk_unfold. unfold bind.
  rewrite visit_unfold.
  destruct (should_skip_directory fs top); [done|].
  rewrite (bool_decide_eq_false_2 _ Hnew).
  rewrite (bool_decide_eq_true_2 _ Hdeep). simpl.
  destruct (bool_decide (name top = "node_modules")).
  - by destruct (scan_node_modules fs T top).
  - destruct (bool_decide ("package.json" ∈ nondirs es)); [|done].
    by destruct (scan_package_json fs T (top // "package.json")).
Qed.

Lemma walk_shallow (fs : node) (T : gset string) (top : path)
    (es : list (string * node)) (st : worker_state) :
  (length (parts top) ≤ 10)%nat →
  should_skip_directory fs top = false →
  name top ≠ "node_modules" →
  walk fs T top (Dir true es) st
  = bind (visit fs T top (nondirs es)) (λ _, walk_dirs fs T top es) st.
Proof.
  intros Hshallow Hskip Hname. rewrite walk_unfold. unfold bind.
  rewrite visit_unfold, Hskip.
  destruct (bool_decide (top ∈ scanned_dirs st)); [done|].
  rewrite (bool_decide_eq_false_2 _ Hname).
  assert (bool_decide (10 < length (parts top)) = false) as ->.
  { apply bool_decide_eq_false. lia. }
  simpl. destruct (bool_decide ("package.json" ∈ nondirs es)); [|done].
  by destruct (scan_package_json fs T (top // "package.json")).
Qed.

Lemma visit_scanned (fs : node) (T : gset string) top files st q :
  q ∈ scanned_dirs (visit fs T top files st).1 →
  q ∈ scanned_dirs st ∨ q = top.
Proof.
  rewrite visit_unfold.
  destruct (should_skip_directory fs top); [by left|].
  destruct (bool_decide (top ∈ scanned_dirs st)); [by left|].
  assert (q ∈ scanned_dirs (add_scanned top st) →
          q ∈ scanned_dirs st ∨ q = top) as Hadd.
  { simpl. rewrite elem_of_union, elem_of_singleton. tauto. }
  destruct (bool_decide (name top = "node_modules")).
  - by destruct (scan_node_modules fs T top).
  - destruct (bool_decide ("package.json" ∈ files)); [|done].
    by destruct (scan_package_json fs T (top // "package.json")).
Qed.





(** ** The visited set *)

(** No directory is processed twice: on a path already in the visited
    set the loop body changes nothing.  But it leaves the directory
    open, and the walk goes on into its subdirectories. *)
Lemma visit_revisit (fs : node) (T : gset string) top files st :
  top ∈ scanned_dirs st →
  should_skip_directory fs top = false →
  visit fs T top files st = (st, Ok true).
Proof.
  intros Hseen Hskip. rewrite visit_unfold, Hskip.
  by rewrite (bool_decide_eq_true_2 _ Hseen).
Qed.

Lemma walk_revisit (fs : node) (T : gset string) top es st :
  top ∈ scanned_dirs st →
  should_skip_directory fs top = false →
  walk fs T top (Dir true es) st = walk_dirs fs T top es st.
Proof.
  intros Hseen Hskip. rewrite walk_unfold. unfold bind.
  by rewrite visit_revisit.
Qed.

(** C9.  A branch is not ended at a directory already in the visited
    set.  With the roots [r] and [r/sub], the walk from [r] scans the
    store [r/sub/node_modules] and does not go into it; the walk from
    [r/sub] then finds the store visited, goes on into it all the same,
    and reports the dependency that the installed package [a] declares.
    Neither root alone reports anything. *)
Theorem revisited_store_is_descended_into :
  (scan_all fs_overlap {["left-pad"]} [["r"]]).1 = ScanResults ∅ ∅
  ∧ (scan_all fs_overlap {["left-pad"]} [["r"; "sub"]]).1 = ScanResults ∅ ∅
  ∧ (scan_all fs_overlap {["left-pad"]} [["r"]; ["r"; "sub"]]).1
    = ScanResults ∅
        {["left-pad" :=
            DependencyReference (JStr "^1.0.0") "dependencies" (JStr "a")
              ["r"; "sub"; "node_modules"; "a"; "package.json"]]}
  ∧ ["r"; "sub"; "node_modules"; "a"]
    ∈ (scan_all fs_overlap {["left-pad"]} [["r"]; ["r"; "sub"]]).2.
Proof. repeat split; by vm_compute. Qed.

(** ** The whole scan on a small tree *)

(** One project, its manifest declaring [left-pad], its store holding
    [left-pad] 1.3.0: one installed record, one dependency reference. *)
Example scan_computer_left_pad :
  scan_computer fs_store {["left-pad"]} [["app"]]
  = (ScanResults
       {["left-pad" :=
           InstalledPackage (JStr "1.3.0") ["app"; "node_modules"; "left-pad"]
                            (JStr "app")]}
       {["left-pad" :=
           DependencyReference (JStr "^1.0.0") "dependencies" (JStr "app")
                               ["app"; "package.json"]]},
     Summary 1 1 1 1).
Proof. by vm_compute. Qed.

(** * Further properties of the scanner *)

(** ** The two lookups of the store scanner *)

(** X1.  The version lookup falls back to ["unknown"]: when the package
    directory has no [package.json], or it is a directory, cannot be
    opened or is not JSON, and when it is a JSON object without a
    [version] field; an object with a [version] field gives that
    field. *)
Theorem get_package_version_fallback (fs : node) (package_path : path) :
  (lookup_node fs (package_path // "package.json") = None
   ∨ (∃ r es, lookup_node fs (package_path // "package.json")
              = Some (Dir r es))
   ∨ lookup_node fs (package_path // "package.json") = Some (File Denied)
   ∨ lookup_node fs (package_path // "package.json") = Some (File Malformed)
   → get_package_version fs package_path = Ok (JStr "unknown"))
  ∧ (∀ fields,
       lookup_node fs (package_path // "package.json")
       = Some (File (Parsed (JObj fields))) →
       get_package_version fs package_path
       = Ok (match fields !! "version" with
             | Some v => v
             | None => JStr "unknown"
             end)).
Proof.
  rewrite get_package_version_cases. split.
  - intros [->|[(r & es & ->)|[->| ->]]]; done.
  - intros fields ->. by destruct (fields !! "version").
Qed.

Lemma find_parent_project_cases (fs : node) (node_modules_path : path) :
  find_parent_project fs node_modules_path =
    match lookup_node fs (parent node_modules_path // "package.json") with
    | Some (File (Parsed (JObj fields))) =>
        Ok (default (JStr (name (parent node_modules_path)))
                    (fields !! "name"))
    | Some (File (Parsed _)) => Raise AttributeError
    | Some (File Undecodable) => Raise UnicodeDecodeError
    | Some (File TooDeep) => Raise RecursionError
    | Some (File TooManyDigits) => Raise ValueError
    | _ => Ok (JStr (name (parent node_modules_path)))
    end.
Proof.
  unfold find_parent_project, path_exists, load_json.
  destruct (lookup_node fs (parent node_modules_path // "package.json"))
    as [[[| | | | |[]]|]|] eqn:Hl; simpl; try done.
Qed.

(** X2.  The project lookup names the directory above the store when
    that directory has no usable manifest (none, a directory, one that
    cannot be opened, one that is not JSON, or an object without a
    [name]), and the declared [name] otherwise; a manifest that parses
    to something else than an object makes it raise [AttributeError],
    and one that is not UTF-8 [UnicodeDecodeError]. *)
Theorem find_parent_project_fallback (fs : node) (project : path) :
  (lookup_node fs (project // "package.json") = None
   ∨ (∃ r es, lookup_node fs (project // "package.json") = Some (Dir r es))
   ∨ lookup_node fs (project // "package.json") = Some (File Denied)
   ∨ lookup_node fs (project // "package.json") = Some (File Malformed)
   → find_parent_project fs (project // "node_modules")
     = Ok (JStr (name project)))
  ∧ (∀ fields,
       lookup_node fs (project // "package.json")
       = Some (File (Parsed (JObj fields))) →
       find_parent_project fs (project // "node_modules")
       = Ok (match fields !! "name" with
             | Some v => v
             | None => JStr (name project)
             end))
  ∧ (∀ j,
       lookup_node fs (project // "package.json") = Some (File (Parsed j)) →
       (∀ fields, j ≠ JObj fields) →
       find_parent_project fs (project // "node_modules")
       = Raise AttributeError)
  ∧ (lookup_node fs (project // "package.json") = Some (File Undecodable) →
     find_parent_project fs (project // "node_modules")
     = Raise UnicodeDecodeError).
Proof.
  rewrite find_parent_project_cases, parent_joinpath.
  split; [|split; [|split]].
  - intros [->|[(r & es & ->)|[->| ->]]]; done.
  - intros fields ->. by destruct (fields !! "name").
  - intros j -> Hj. destruct j; try done. by destruct (Hj fields).
  - by intros ->.
Qed.

(** ** More on the store scan *)

Section StoreScanInvariant.
Variable fs : node.
Variable target_packages : gset string.
Variable node_modules_path : path.

(** What the assignment to [found_in_this_dir] preserves at every
    directory, the store scan preserves. *)
Variable P : gmap string installed_package → Prop.
Hypothesis record_preserves :
  ∀ package_dir key found,
    is_dir fs package_dir = true →
    P found →
    P (record_installed fs node_modules_path package_dir key found).1.

Lemma scan_scoped_package_preserves item scoped_package found :
  P found →
  P (scan_scoped_package fs target_packages node_modules_path item
       scoped_package found).1.
Proof.
  intros Hfound. unfold scan_scoped_package.
  destruct (is_dir fs scoped_package) eqn:Hdir; [|done].
  destruct (bool_decide _); [|done]. by apply record_preserves.
Qed.

Lemma scan_item_preserves item found :
  P found →
  P (scan_item fs target_packages node_modules_path item found).1.
Proof.
  intros Hfound. unfold scan_item.
  destruct (is_dir fs item) eqn:Hdir; simpl; [|done].
  destruct (String.prefix "@" (name item)).
  - unfold catch, bind, lift.
    destruct (iterdir fs item) as [children|e].
    + pose proof (for_each_invariant P
                    (scan_scoped_package fs target_packages node_modules_path
                       item) children found) as Hloop.
      destruct (for_each _ children found) as [s' [[]|e]]; simpl in *.
      * apply Hloop; [|done]. intros. by apply scan_scoped_package_preserves.
      * destruct (caught_by_lister e); simpl;
          (apply Hloop; [|done]; intros;
           by apply scan_scoped_package_preserves).
    + by destruct (caught_by_lister e).
  - destruct (bool_decide _); [|done]. by apply record_preserves.
Qed.

Lemma scan_node_modules_invariant found :
  P ∅ →
  scan_node_modules fs target_packages node_modules_path = Ok found →
  P found.
Proof.
  intros Hempty. unfold scan_node_modules, catch.
  destruct (path_exists fs node_modules_path); simpl.
  2: { by intros [= <-]. }
  unfold bind, lift.
  destruct (iterdir fs node_modules_path) as [items|e].
  - pose proof (for_each_invariant P
                  (scan_item fs target_packages node_modules_path)
                  items ∅) as Hloop.
    destruct (for_each _ items ∅) as [s' [[]|e]]; simpl in *.
    + intros [= <-]. apply Hloop; [|done]. intros.
      by apply scan_item_preserves.
    + destruct (caught_by_lister e); [|done]. intros [= <-].
      apply Hloop; [|done]. intros. by apply scan_item_preserves.
  - destruct (caught_by_lister e); [|done]. by intros [= <-].
Qed.

End StoreScanInvariant.

Lemma record_installed_read_from (fs : node) (node_modules_path : path)
    package_dir key (found : gmap string installed_package) :
  is_dir fs package_dir = true →
  all_read_from fs node_modules_path found →
  all_read_from fs node_modules_path
    (record_installed fs node_modules_path package_dir key found).1.
Proof.
  intros Hdir Hfound. unfold record_installed, bind, lift, modify.
  destruct (get_package_version fs package_dir) as [v|e] eqn:Hv; [|done].
  destruct (find_parent_project fs node_modules_path) as [pp|e] eqn:Hp;
    [|done].
  simpl. intros k r. destruct (decide (key = k)) as [<-|Hne].
  - rewrite lookup_insert_eq. intros [= <-]. done.
  - rewrite lookup_insert_ne by done. apply Hfound.
Qed.

Lemma store_records_are_read_from_aux (fs : node) (T : gset string)
    (node_modules_path : path) (found : gmap string installed_package)
    (k : string) (r : installed_package) :
  scan_node_modules fs T node_modules_path = Ok found →
  found !! k = Some r →
  k ∈ T ∧ is_dir fs (ip_path r) = true.
Proof.
  intros Hrun Hk.
  destruct (scan_node_modules_records _ _ _ _ _ _ Hrun Hk) as [Ht _].
  assert (all_read_from fs node_modules_path found) as Hread.
  { eapply scan_node_modules_invariant; [|by intros ? ? ?|done].
    intros. by apply record_installed_read_from. }
  by destruct (Hread k r Hk) as (Hdir & _ & _).
Qed.

(** X3.  Every record a store scan returns was read off the file
    system: its key is a target, its path is a directory that is a
    child of the store or a child of a scope directory of the store,
    its version is what [get_package_version] returns for that path
    and its project what [find_parent_project] returns for the
    store. *)
Theorem store_records_are_read_from
    (fs : node) (target_packages : gset string) (node_modules_path : path)
    (found : gmap string installed_package) (k : string)
    (r : installed_package) :
  scan_node_modules fs target_packages node_modules_path = Ok found →
  found !! k = Some r →
  k ∈ target_packages
  ∧ in_store node_modules_path r
  ∧ is_dir fs (ip_path r) = true
  ∧ get_package_version fs (ip_path r) = Ok (ip_version r)
  ∧ find_parent_project fs node_modules_path = Ok (ip_parent_project r).
Proof.
  intros Hrun Hk.
  destruct (scan_node_modules_records _ _ _ _ _ _ Hrun Hk)
    as [Ht Hplace].
  assert (all_read_from fs node_modules_path found) as Hread.
  { eapply scan_node_modules_invariant; [|by intros ? ? ?|done].
    intros. by apply record_installed_read_from. }
  destruct (Hread k r Hk) as (Hdir & Hv & Hp).
  repeat split; try done.
  destruct Hplace as [(item & _ & Hpath & _)|(scope & child & _ & Hpath & _)].
  - left. eauto.
  - right. eauto.
Qed.

Lemma store_records_are_read_from_witness :
  "left-pad" ∈ ({["left-pad"]} : gset string)
  ∧ in_store ["app"; "node_modules"]
      (InstalledPackage (JStr "1.3.0") ["app"; "node_modules"; "left-pad"]
                        (JStr "app"))
  ∧ is_dir fs_store ["app"; "node_modules"; "left-pad"] = true
  ∧ get_package_version fs_store ["app"; "node_modules"; "left-pad"]
    = Ok (JStr "1.3.0")
  ∧ find_parent_project fs_store ["app"; "node_modules"] = Ok (JStr "app").
Proof.
  apply (store_records_are_read_from fs_store {["left-pad"]}
           ["app"; "node_modules"]
           {["left-pad" :=
               InstalledPackage (JStr "1.3.0")
                 ["app"; "node_modules"; "left-pad"] (JStr "app")]}
           "left-pad").
  - vm_compute. reflexivity.
  - vm_compute. reflexivity.
Defined.

Lemma scan_node_modules_plain_found (fs : node) (T : gset string)
    (node_modules_path : path) (found : gmap string installed_package)
    es (item : string) :
  lookup_node fs node_modules_path = Some (Dir true es) →
  is_dir fs (node_modules_path // item) = true →
  String.prefix "@" item = false →
  item ∈ T →
  scan_node_modules fs T node_modules_path = Ok found →
  is_Some (found !! item).
Proof.
  intros Hstore Hdir Hat Ht Hrun.
  pose proof (scan_node_modules_run _ _ _ found es Hstore Hrun) as Hloop.
  assert (item ∈ es.*1) as Hin.
  { unfold is_dir in Hdir. rewrite lookup_node_joinpath, Hstore in Hdir.
    destruct (assoc item es) as [n|] eqn:Ha; [|done].
    by apply assoc_elem_of in Ha. }
  eapply (for_each_establishes
            (λ f : gmap string installed_package, is_Some (f !! item))
            _ _ (node_modules_path // item)); [exact Hloop| | |].
  - apply list_elem_of_fmap in Hin as [e [-> He]].
    apply list_elem_of_fmap. eauto.
  - intros s0 s1. unfold scan_item. rewrite name_joinpath, Hdir, Hat. simpl.
    rewrite bool_decide_eq_true_2 by done. apply record_installed_ok.
  - intros y s0 Hy. apply extends_is_Some with
      (target_packages := T) (node_modules_path := node_modules_path).
    apply list_elem_of_fmap in Hy as [en [-> _]].
    apply scan_item_extends.
Qed.



(** X5.  A store that cannot be listed (it does not exist, is a file,
    or is not readable) gives the empty result; the scan does not
    raise. *)
Theorem unlistable_store_is_empty
    (fs : node) (target_packages : gset string) (node_modules_path : path) :
  (∀ es, lookup_node fs node_modules_path ≠ Some (Dir true es)) →
  scan_node_modules fs target_packages node_modules_path = Ok ∅.
Proof.
  intros Hstore. unfold scan_node_modules, catch, path_exists, iterdir.
  destruct (lookup_node fs node_modules_path) as [[c|[] es]|] eqn:Hl.
  - by rewrite bool_decide_eq_true_2 by eauto.
  - by destruct (Hstore es).
  - by rewrite bool_decide_eq_true_2 by eauto.
  - rewrite bool_decide_eq_false_2; [done|]. by intros [? ?].
Qed.

Lemma unlistable_store_is_empty_witness :
  scan_node_modules fs_store {["left-pad"]} ["app"; "package.json"] = Ok ∅.
Proof.
  apply unlistable_store_is_empty. intros es. vm_compute. discriminate.
Defined.

(** ** More on the manifest scan *)

(** X6.  A manifest that is missing, is a directory, cannot be opened
    or is not JSON gives the empty result: the handler catches what
    reading it raises.  The other failures of the read pass the
    handler, and the scan raises: [UnicodeDecodeError] on a manifest
    that is not UTF-8, [RecursionError] on one nested too deep,
    [ValueError] on one with an integer literal beyond the digit
    limit. *)
Theorem unreadable_manifest_is_empty
    (fs : node) (target_packages : gset string) (package_json_path : path) :
  (lookup_node fs package_json_path = None
   ∨ (∃ r es, lookup_node fs package_json_path = Some (Dir r es))
   ∨ lookup_node fs package_json_path = Some (File Denied)
   ∨ lookup_node fs package_json_path = Some (File Malformed)
   → scan_package_json fs target_packages package_json_path = Ok ∅)
  ∧ (lookup_node fs package_json_path = Some (File Undecodable) →
     scan_package_json fs target_packages package_json_path
     = Raise UnicodeDecodeError)
  ∧ (lookup_node fs package_json_path = Some (File TooDeep) →
     scan_package_json fs target_packages package_json_path
     = Raise RecursionError)
  ∧ (lookup_node fs package_json_path = Some (File TooManyDigits) →
     scan_package_json fs target_packages package_json_path
     = Raise ValueError).
Proof.
  unfold scan_package_json, catch, bind, lift, load_json.
  split; [|split; [|split]].
  - intros [->|[(r & es & ->)|[->| ->]]]; done.
  - by intros ->.
  - by intros ->.
  - by intros ->.
Qed.

Lemma unreadable_manifest_is_empty_witness :
  scan_package_json fs_store {["left-pad"]} ["app"; "node_modules"] = Ok ∅.
Proof.
  apply (proj1 (unreadable_manifest_is_empty fs_store {["left-pad"]}
                  ["app"; "node_modules"])).
  right. left. by eexists _, _.
Defined.

(** X7.  A manifest that parses to something else than an object: on
    [null], a boolean or a number the membership test raises
    [TypeError]; an array or a string gives the empty result, unless it
    names one of the four sections (as an element, as a substring),
    where the subscript raises [TypeError]. *)
Theorem non_object_manifest
    (fs : node) (target_packages : gset string) (package_json_path : path)
    (data : json) :
  load_json fs package_json_path = Ok data →
  (∀ fields, data ≠ JObj fields) →
  scan_package_json fs target_packages package_json_path
  = match data with
    | JArr _ | JStr _ =>
        if names_a_section data then Raise TypeError else Ok ∅
    | _ => Raise TypeError
    end.
Proof.
  intros Hload Hdata.
  unfold scan_package_json, catch, bind, lift. rewrite Hload.
  destruct data as [| | |s|l|fields]; try done.
  - unfold names_a_section, dep_sections. cbn [for_each existsb].
    unfold bind, scan_section, bind, lift, py_in, py_getitem, ret.
    destruct (contains "dependencies" s); [done|].
    destruct (contains "devDependencies" s); [done|].
    destruct (contains "peerDependencies" s); [done|].
    destruct (contains "optionalDependencies" s); done.
  - unfold names_a_section, dep_sections. cbn [for_each existsb].
    unfold bind, scan_section, bind, lift, py_in, py_getitem, ret.
    destruct (existsb (is_str "dependencies") l); [done|].
    destruct (existsb (is_str "devDependencies") l); [done|].
    destruct (existsb (is_str "peerDependencies") l); [done|].
    destruct (existsb (is_str "optionalDependencies") l); done.
  - by destruct (Hdata fields).
Qed.

Lemma non_object_manifest_witness :
  scan_package_json fs_array_metadata {["left-pad"]} ["pkg"; "package.json"]
  = Ok ∅.
Proof.
  apply (non_object_manifest fs_array_metadata {["left-pad"]}
           ["pkg"; "package.json"] (JArr [])).
  - reflexivity.
  - intros fields. discriminate.
Defined.

Lemma scan_sections_ok_objects (T : gset string) (p : path)
    (fields : gmap string json) (sections : list string)
    (found found' : gmap string dependency_reference) :
  for_each (scan_section T p (JObj fields)) sections found = (found', Ok tt) →
  sections_are_objects fields sections.
Proof.
  revert found. induction sections as [|section sections IH]; intros found.
  { intros _ s j Hs. by apply elem_of_nil in Hs. }
  simpl. unfold bind. rewrite scan_section_object.
  destruct (fields !! section) as [j|] eqn:Hs.
  - destruct j as [| | | | |deps]; try done.
    intros Hrun s j Hin Hj. apply elem_of_cons in Hin as [->|Hin].
    + rewrite Hs in Hj. injection Hj as <-. eauto.
    + by eapply IH.
  - intros Hrun s j Hin Hj. apply elem_of_cons in Hin as [->|Hin].
    + by rewrite Hs in Hj.
    + by eapply IH.
Qed.

(** X8.  On a manifest that parses to an object the scan returns a map
    exactly when every dependency section the manifest has is itself an
    object; otherwise it raises [AttributeError], whatever the other
    sections list. *)
Theorem object_manifest_returns_iff_sections_are_objects
    (fs : node) (target_packages : gset string) (package_json_path : path)
    (fields : gmap string json) :
  load_json fs package_json_path = Ok (JObj fields) →
  ((∃ found,
      scan_package_json fs target_packages package_json_path = Ok found)
   ↔ sections_are_objects fields dep_sections)
  ∧ ((∃ found,
        scan_package_json fs target_packages package_json_path = Ok found)
     ∨ scan_package_json fs target_packages package_json_path
       = Raise AttributeError).
Proof.
  intros Hload. split; [split|].
  - intros [found Hrun]. revert Hrun.
    unfold scan_package_json, catch, bind, lift. rewrite Hload.
    destruct (for_each _ dep_sections ∅) as [s' [[]|e]] eqn:Hloop.
    + intros _. by eapply scan_sections_ok_objects.
    + destruct (scan_sections_cases target_packages package_json_path fields
                  dep_sections ∅ (λ _, None))
        as [(found' & Hok & _)|(found' & Hraise)].
      * intros k. rewrite lookup_empty. by destruct (bool_decide _).
      * by rewrite Hok in Hloop.
      * rewrite Hraise in Hloop. by injection Hloop as <- <-.
  - intros Hobj.
    destruct (scan_package_json_object fs target_packages package_json_path
                fields Hload Hobj) as (found & Hrun & _).
    by exists found.
  - unfold scan_package_json, catch, bind, lift. rewrite Hload.
    destruct (scan_sections_cases target_packages package_json_path fields
                dep_sections ∅ (λ _, None))
      as [(found' & -> & _)|(found' & ->)].
    + intros k. rewrite lookup_empty. by destruct (bool_decide _).
    + left. by eexists.
    + by right.
Qed.

Lemma object_manifest_returns_iff_sections_are_objects_witness :
  ((∃ found,
      scan_package_json fs_four_classes {["left-pad"]} ["app"; "package.json"]
      = Ok found)
   ↔ sections_are_objects four_classes_fields dep_sections)
  ∧ ((∃ found,
        scan_package_json fs_four_classes {["left-pad"]}
          ["app"; "package.json"] = Ok found)
     ∨ scan_package_json fs_four_classes {["left-pad"]}
         ["app"; "package.json"] = Raise AttributeError).
Proof.
  apply (object_manifest_returns_iff_sections_are_objects fs_four_classes
           {["left-pad"]} ["app"; "package.json"] four_classes_fields).
  reflexivity.
Defined.

(** ** More on the walk *)

(** X9.  A root that the classifier skips, or that is no readable
    directory (missing, a file, unreadable), gives no results and
    leaves the visited set as it was. *)
Theorem unwalkable_root_yields_nothing
    (fs : node) (target_packages : gset string) (root_path : path)
    (scanned : gset path) :
  should_skip_directory fs root_path = true
  ∨ (∀ es, lookup_node fs root_path ≠ Some (Dir true es)) →
  scan_directory_worker fs target_packages root_path scanned
  = WorkerState ∅ ∅ scanned.
Proof.
  intros Hroot. unfold scan_directory_worker.
  destruct (lookup_node fs root_path) as [[c|[] es]|] eqn:Hl; try done.
  destruct Hroot as [Hskip|Hno]; [|by destruct (Hno es)].
  rewrite walk_unfold. unfold bind. by rewrite visit_unfold, Hskip.
Qed.

Lemma unwalkable_root_yields_nothing_witness :
  scan_directory_worker fs_under_build {["left-pad"]} ["build"] ∅
  = WorkerState ∅ ∅ ∅.
Proof.
  apply unwalkable_root_yields_nothing. left. reflexivity.
Defined.

Lemma walk_dirs_app (fs : node) (T : gset string) (top : path)
    (es1 es2 : list (string * node)) (st : worker_state) :
  walk_dirs fs T top (es1 ++ es2) st =
    match walk_dirs fs T top es1 st with
    | (st1, Ok _) => walk_dirs fs T top es2 st1
    | (st1, Raise e) => (st1, Raise e)
    end.
Proof.
  revert st. induction es1 as [|[d child] es1 IH]; intros st; [done|].
  simpl. unfold bind.
  destruct ((if is_dir_node child then walk fs T (top // d) child
             else ret tt) st) as [st1 [[]|e]]; [apply IH | done].
Qed.

(** X10.  An exception ends the walk of its root.  When the loop body
    raises at a directory, none of its subdirectories is walked; and
    when the walk of a subdirectory raises, the subdirectories after
    it are not walked either: the outcome does not depend on them. *)
Theorem raise_ends_the_walk
    (fs : node) (target_packages : gset string) (top : path) :
  (∀ es st st' e,
     visit fs target_packages top (nondirs es) st = (st', Raise e) →
     walk fs target_packages top (Dir true es) st = (st', Raise e))
  ∧ (∀ es1 d child es2 st st1 st2 e,
       walk_dirs fs target_packages top es1 st = (st1, Ok tt) →
       is_dir_node child = true →
       walk fs target_packages (top // d) child st1 = (st2, Raise e) →
       walk_dirs fs target_packages top (es1 ++ (d, child) :: es2) st
       = (st2, Raise e)).
Proof.
  split.
  - intros es st st' e Hv. rewrite walk_unfold. unfold bind. by rewrite Hv.
  - intros es1 d child es2 st st1 st2 e H1 Hdir Hchild.
    rewrite walk_dirs_app, H1. simpl. unfold bind. by rewrite Hdir, Hchild.
Qed.

(** *** A walk of a tree without duplicate names *)

Lemma joinpath_prefix_inj (top q : path) (d d' : string) :
  top // d `prefix_of` q → top // d' `prefix_of` q → d = d'.
Proof.
  intros [k ->] [k' Hk]. unfold joinpath in Hk.
  rewrite <- !app_assoc in Hk. apply app_inv_head in Hk. by injection Hk.
Qed.

Lemma joinpath_not_prefix (top : path) (d : string) :
  ¬ top // d `prefix_of` top.
Proof.
  intros [k Hk]. apply (f_equal length) in Hk. unfold joinpath in Hk.
  rewrite !length_app in Hk. simpl in Hk. lia.
Qed.

Lemma prefix_of_joinpath (top q : path) (d : string) :
  top // d `prefix_of` q → top `prefix_of` q.
Proof.
  intros [k ->]. exists (d :: k). unfold joinpath. by rewrite <- app_assoc.
Qed.

(** A walk only adds paths at or below where it starts. *)
Lemma walk_adds_below (fs : node) (T : gset string) (n : node) (top : path)
    (st : worker_state) (q : path) :
  q ∈ scanned_dirs (walk fs T top n st).1 →
  q ∈ scanned_dirs st ∨ top `prefix_of` q.
Proof.
  revert q.
  apply (walk_invariant fs T
           (λ st', ∀ q, q ∈ scanned_dirs st' →
                       q ∈ scanned_dirs st ∨ top `prefix_of` q)
           (λ top', top `prefix_of` top')); [| |done|by left].
  - intros top' files st' Htop' Hst' q Hq.
    apply visit_scanned in Hq as [Hq| ->]; [by apply Hst' | by right].
  - intros top' files st' st'' d [k ->] _. exists (k ++ [d])%list.
    unfold joinpath. by rewrite app_assoc.
Qed.

Lemma visit_open_passable (fs : node) (T : gset string) top files st st' :
  visit fs T top files st = (st', Ok true) →
  should_skip_directory fs top = false
  ∧ (top ∈ scanned_dirs st
     ∨ (name top ≠ "node_modules" ∧ (length (parts top) ≤ 10)%nat)).
Proof.
  rewrite visit_unfold.
  destruct (should_skip_directory fs top); [done|].
  destruct (bool_decide (top ∈ scanned_dirs st)) eqn:Hseen.
  { intros _. split; [done|]. left. by apply bool_decide_eq_true in Hseen. }
  destruct (bool_decide (name top = "node_modules")) eqn:Hname.
  { by destruct (scan_node_modules fs T top). }
  apply bool_decide_eq_false in Hname.
  assert (negb (bool_decide (10 < length (parts top))) = true →
          (length (parts top) ≤ 10)%nat) as Hdeep.
  { intros H. apply negb_true_iff, bool_decide_eq_false in H. lia. }
  destruct (bool_decide ("package.json" ∈ files)).
  - destruct (scan_package_json fs T (top // "package.json")); [|done].
    intros [= _ H]. split; [done|]. right. split; [done|]. by apply Hdeep.
  - intros [= _ H]. split; [done|]. right. split; [done|]. by apply Hdeep.
Qed.

Section FirstWalk.
Variable fs : node.
Variable target_packages : gset string.
Variable root : path.
Variable scanned : gset path.

Lemma visit_all_reached top files st :
  reached fs scanned root top →
  all_reached fs scanned root st →
  all_reached fs scanned root (visit fs target_packages top files st).1.
Proof.
  intros Htop Hst q Hq.
  apply visit_scanned in Hq as [Hq| ->]; [by apply Hst | by right].
Qed.

Lemma walk_all_reached (n : node) :
  ∀ top st,
    well_formed n →
    reached fs scanned root top →
    fresh scanned top st →
    all_reached fs scanned root st →
    all_reached fs scanned root (walk fs target_packages top n st).1.
Proof.
  induction n as [c|r es IH] using node_tree_ind;
    intros top st Hwf Htop Hfresh Hst; [done|].
  rewrite walk_unfold. destruct r; [|done]. unfold bind.
  pose proof (visit_all_reached top (nondirs es) st Htop Hst) as Hvisit.
  destruct (visit fs target_packages top (nondirs es) st)
    as [st1 [keep|e]] eqn:Hv; simpl in Hvisit; [|done].
  destruct keep; [|done].
  apply visit_open_passable in Hv as Hpass.
  assert (passable fs scanned top) as Hpassable.
  { destruct Hpass as [Hskip [Hseen|Hopen]]; split; try done.
    - left. by apply Hfresh.
    - by right. }
  assert (∀ d, fresh scanned (top // d) st1) as Hfresh1.
  { intros d q Hq Hpre.
    replace st1 with (visit fs target_packages top (nondirs es) st).1 in Hq
      by (by rewrite Hv).
    apply visit_scanned in Hq as [Hq| ->].
    - apply Hfresh; [done|]. by eapply prefix_of_joinpath.
    - by apply joinpath_not_prefix in Hpre. }
  inversion Hwf as [|r' es' Hnodup Hwfs]; subst.
  clear Hv Hst Hfresh Hpass Hwf.
  assert (∀ e, e ∈ es → fresh scanned (top // e.1) st1) as Hfr.
  { intros e _. apply Hfresh1. }
  clear Hfresh1. revert st1 Hvisit Hfr.
  induction es as [|[d child] es IHes]; intros st1 Hst1 Hfr; [done|].
  apply Forall_cons in IH as [IHchild IH]. simpl in IHchild.
  apply Forall_cons in Hwfs as [Hwfchild Hwfs]. simpl in Hwfchild.
  simpl in Hnodup. apply NoDup_cons in Hnodup as [Hd Hnodup].
  simpl. unfold bind.
  assert (reached fs scanned root (top // d)) as Hchild_reached.
  { by constructor. }
  assert (all_reached fs scanned root
            ((if is_dir_node child
              then walk fs target_packages (top // d) child
              else ret tt) st1).1) as Hchild.
  { destruct (is_dir_node child); [|done].
    apply IHchild; try done. apply (Hfr (d, child)). by left. }
  assert (∀ e, e ∈ es →
               fresh scanned (top // e.1)
                 ((if is_dir_node child
                   then walk fs target_packages (top // d) child
                   else ret tt) st1).1) as Hfr'.
  { intros e He q Hq Hpre.
    assert (q ∈ scanned_dirs st1 ∨ top // d `prefix_of` q) as [Hq1|Hq1].
    { destruct (is_dir_node child); [|by left].
      by apply walk_adds_below in Hq. }
    - apply (Hfr e); [by right|done|done].
    - exfalso. apply Hd.
      rewrite (joinpath_prefix_inj top q d e.1 Hq1 Hpre).
      apply list_elem_of_fmap. eauto. }
  destruct ((if is_dir_node child
             then walk fs target_packages (top // d) child
             else ret tt) st1) as [st2 [[]|e]]; [|done].
  by apply IHes.
Qed.

End FirstWalk.

Lemma reached_ancestors (fs : node) (scanned : gset path) (root q : path) :
  reached fs scanned root q →
  root `prefix_of` q
  ∧ ∀ d, root `prefix_of` d → d `prefix_of` q → d ≠ q →
         passable fs scanned d.
Proof.
  induction 1 as [|q c Hq [Hpre IH] Hpass].
  - split; [done|]. intros d Hd1 Hd2 Hne.
    destruct Hne. by apply (anti_symm prefix).
  - split.
    + destruct Hpre as [k ->]. exists (k ++ [c])%list. unfold joinpath.
      by rewrite app_assoc.
    + intros d Hd1 Hd2 Hne. apply prefix_of_snoc in Hd2 as [->|Hd2]; [done|].
      destruct (decide (d = q)) as [->|Hdq]; [done|]. by apply IH.
Qed.

Lemma scan_directory_worker_all_reached (fs : node) (T : gset string)
    (root : path) (scanned : gset path) (n : node) :
  lookup_node fs root = Some n →
  well_formed n →
  all_reached fs scanned root (scan_directory_worker fs T root scanned).
Proof.
  intros Hl Hwf. unfold scan_directory_worker. rewrite Hl.
  apply walk_all_reached; try done.
  - constructor.
  - by intros q Hq _.
  - intros q Hq. by left.
Qed.

(** X11.  In a walk of a tree that lists no name twice, every directory
    the walk processes lies at or below the root, and every directory
    strictly between the root (included) and it is one the walk goes
    on below: not skipped, and either visited before this walk began
    or a plain directory (not named [node_modules]) with at most 10
    parts. *)
Theorem walk_goes_through_passable_directories
    (fs : node) (target_packages : gset string) (root : path)
    (scanned : gset path) (n : node) (q : path) :
  lookup_node fs root = Some n →
  well_formed n →
  q ∈ scanned_dirs (scan_directory_worker fs target_packages root scanned) →
  q ∉ scanned →
  root `prefix_of` q
  ∧ ∀ d, root `prefix_of` d → d `prefix_of` q → d ≠ q →
         should_skip_directory fs d = false
         ∧ (d ∈ scanned
            ∨ (name d ≠ "node_modules" ∧ (length (parts d) ≤ 10)%nat)).
Proof.
  intros Hl Hwf Hq Hnew.
  destruct (scan_directory_worker_all_reached fs target_packages root scanned
              n Hl Hwf q Hq) as [?|Hreached]; [done|].
  by apply reached_ancestors in Hreached.
Qed.

Lemma fs_store_app_well_formed :
  ∃ n, lookup_node fs_store ["app"] = Some n ∧ well_formed n.
Proof.
  eexists. split; [reflexivity|].
  repeat (first [ apply well_formed_file
                | apply well_formed_dir
                | apply Forall_nil_2
                | apply Forall_cons_2; simpl ]);
    apply (bool_decide_unpack _); vm_compute; exact I.
Defined.

Lemma walk_goes_through_passable_directories_witness :
  ["app"] `prefix_of` ["app"; "node_modules"]
  ∧ ∀ d, ["app"] `prefix_of` d → d `prefix_of` ["app"; "node_modules"] →
         d ≠ ["app"; "node_modules"] →
         should_skip_directory fs_store d = false
         ∧ (d ∈ (∅ : gset path)
            ∨ (name d ≠ "node_modules" ∧ (length (parts d) ≤ 10)%nat)).
Proof.
  destruct fs_store_app_well_formed as (n & Hl & Hwf).
  apply (walk_goes_through_passable_directories fs_store {["left-pad"]}
           ["app"] ∅ n ["app"; "node_modules"] Hl Hwf).
  - by vm_compute.
  - apply not_elem_of_empty.
Defined.

(** X12.  On the first walk of a scanner (nothing visited yet) over a
    tree that lists no name twice, no directory inside a store is
    processed, and every processed directory other than the root has
    at most 11 parts. *)
Theorem first_walk_stays_out_of_stores
    (fs : node) (target_packages : gset string) (root : path) (n : node)
    (q : path) :
  lookup_node fs root = Some n →
  well_formed n →
  q ∈ scanned_dirs (scan_directory_worker fs target_packages root ∅) →
  (∀ d, root `prefix_of` d → d `prefix_of` q → d ≠ q →
        name d ≠ "node_modules")
  ∧ (q = root ∨ (length (parts q) ≤ 11)%nat).
Proof.
  intros Hl Hwf Hq.
  destruct (scan_directory_worker_all_reached fs target_packages root ∅
              n Hl Hwf q Hq) as [Hold|Hreached].
  { by apply not_elem_of_empty in Hold. }
  apply reached_ancestors in Hreached as [[k ->] Hanc].
  split.
  - intros d Hd1 Hd2 Hne.
    destruct (Hanc d Hd1 Hd2 Hne) as [_ [Hold|[Hname _]]]; [|done].
    by apply not_elem_of_empty in Hold.
  - destruct k as [|x k _] using rev_ind.
    + left. by rewrite app_nil_r.
    + right.
      destruct (Hanc (root ++ k)%list) as [_ [Hold|[_ Hdepth]]].
      * by exists k.
      * exists [x]. by rewrite <- app_assoc.
      * intros Heq. apply (f_equal length) in Heq.
        rewrite !length_app in Heq. simpl in Heq. lia.
      * by apply not_elem_of_empty in Hold.
      * unfold parts in *. simpl in *. rewrite !length_app in *.
        simpl. lia.
Qed.

Lemma first_walk_stays_out_of_stores_witness :
  (∀ d, ["app"] `prefix_of` d → d `prefix_of` ["app"; "node_modules"] →
        d ≠ ["app"; "node_modules"] → name d ≠ "node_modules")
  ∧ (["app"; "node_modules"] = ["app"]
     ∨ (length (parts ["app"; "node_modules"]) ≤ 11)%nat).
Proof.
  destruct fs_store_app_well_formed as (n & Hl & Hwf).
  apply (first_walk_stays_out_of_stores fs_store {["left-pad"]}
           ["app"] n ["app"; "node_modules"] Hl Hwf).
  by vm_compute.
Defined.

(** ** The summary *)

Lemma keys_in_size {V} (T : gset string) (m : gmap string V) :
  keys_in T m → (size m ≤ size T)%nat.
Proof.
  intros Hkeys. rewrite <- size_dom. apply subseteq_size.
  intros k Hk. apply Hkeys. by apply elem_of_dom.
Qed.

(** X13.  The counts of the summary fit together: no count exceeds the
    number of target packages, the number of unique packages is at
    least each of the two other counts and at most their sum. *)
Theorem summary_counts_are_bounded
    (fs : node) (target_packages : gset string) (search_paths : list path) :
  let s := (scan_computer fs target_packages search_paths).2 in
  total_target_packages s = size target_packages
  ∧ (installed_packages_found s ≤ unique_packages_found s)%nat
  ∧ (dependency_references_found s ≤ unique_packages_found s)%nat
  ∧ (unique_packages_found s
     ≤ installed_packages_found s + dependency_references_found s)%nat
  ∧ (unique_packages_found s ≤ total_target_packages s)%nat.
Proof.
  unfold scan_computer. simpl.
  destruct (scan_all_keys fs target_packages search_paths) as [Hi Hd].
  set (results := (scan_all fs target_packages search_paths).1) in *.
  rewrite <- !size_dom.
  split; [done|]. split; [|split; [|split]].
  - apply subseteq_size. apply union_subseteq_l.
  - apply subseteq_size. apply union_subseteq_r.
  - rewrite size_union_alt. apply Nat.add_le_mono_l.
    apply subseteq_size. apply subseteq_difference_l. reflexivity.
  - apply subseteq_size. intros k Hk.
    apply elem_of_union in Hk as [Hk|Hk]; apply elem_of_dom in Hk.
    + by apply Hi.
    + by apply Hd.
Qed.

(** ** More roots *)

Lemma visit_scanned_mono (fs : node) (T : gset string) top files st q :
  q ∈ scanned_dirs st → q ∈ scanned_dirs (visit fs T top files st).1.
Proof.
  intros Hq. rewrite visit_unfold.
  destruct (should_skip_directory fs top); [done|].
  destruct (bool_decide (top ∈ scanned_dirs st)); [done|].
  assert (q ∈ scanned_dirs (add_scanned top st)) as Hadd.
  { simpl. apply elem_of_union. by right. }
  destruct (bool_decide (name top = "node_modules")).
  - by destruct (scan_node_modules fs T top).
  - destruct (bool_decide ("package.json" ∈ files)); [|done].
    by destruct (scan_package_json fs T (top // "package.json")).
Qed.

Lemma scan_directory_worker_scanned_mono (fs : node) (T : gset string)
    (root : path) (scanned : gset path) :
  scanned ⊆ scanned_dirs (scan_directory_worker fs T root scanned).
Proof.
  unfold scan_directory_worker.
  destruct (lookup_node fs root) as [n|]; [|done].
  apply (walk_invariant fs T (λ st, scanned ⊆ scanned_dirs st) (λ _, True));
    try done.
  intros top files st _ Hst q Hq. apply visit_scanned_mono. by apply Hst.
Qed.

Lemma dom_update {V} (d other : gmap string V) :
  dom (update d other) = dom other ∪ dom d.
Proof. unfold update. apply dom_union_L. Qed.

(** X14.  Search paths added at the end never take anything away: every
    package found with the first paths is still a key of the result,
    in both maps, and every directory visited stays visited. *)
Theorem more_search_paths_lose_nothing
    (fs : node) (target_packages : gset string)
    (first_paths more_paths : list path) :
  dom (res_installed_packages (scan_all fs target_packages first_paths).1)
  ⊆ dom (res_installed_packages
           (scan_all fs target_packages (first_paths ++ more_paths)).1)
  ∧ dom (res_dependency_references
           (scan_all fs target_packages first_paths).1)
    ⊆ dom (res_dependency_references
             (scan_all fs target_packages (first_paths ++ more_paths)).1)
  ∧ (scan_all fs target_packages first_paths).2
    ⊆ (scan_all fs target_packages (first_paths ++ more_paths)).2.
Proof.
  unfold scan_all. rewrite fold_left_app.
  set (step := λ (acc : scan_results * gset path) (root_path : path),
         let st := scan_directory_worker fs target_packages root_path acc.2 in
         (merge acc.1 (installed_packages st, dependency_references st),
          scanned_dirs st)).
  assert (∀ acc,
            dom (res_installed_packages acc.1)
            ⊆ dom (res_installed_packages (fold_left step more_paths acc).1)
            ∧ dom (res_dependency_references acc.1)
              ⊆ dom (res_dependency_references
                       (fold_left step more_paths acc).1)
            ∧ acc.2 ⊆ (fold_left step more_paths acc).2) as Hfold.
  { induction more_paths as [|root_path more_paths IH];
      intros [results scanned]; [done|].
    simpl. destruct (IH (step (results, scanned) root_path))
      as (Hi & Hd & Hs).
    unfold step in Hi at 1, Hd at 1, Hs at 1. simpl in Hi, Hd, Hs.
    split; [|split].
    - etrans; [|exact Hi]. rewrite dom_update. apply union_subseteq_r.
    - etrans; [|exact Hd]. rewrite dom_update. apply union_subseteq_r.
    - etrans; [|exact Hs]. apply scan_directory_worker_scanned_mono. }
  apply Hfold.
Qed.

(** ** The package list *)

Example parse_package_list_example :
  parse_package_list
    (render_package_list ("Package" +:+ String tab "Versions")
       [("@ctrl/tinycolor", "4.1.1, 4.1.2"); ("ngx-color", "10.0.1")])
  = {["@ctrl/tinycolor"; "ngx-color"]}.
Proof. by vm_compute. Qed.

(** *** Characters of stripped and split strings *)

Lemma has_char_lstrip (c : ascii) (s : string) :
  has_char c (lstrip s) = true → has_char c s = true.
Proof.
  induction s as [|x s IH]; simpl; [done|].
  destruct (is_space x); [|done].
  intros H. rewrite (IH H). by destruct (Ascii.eqb x c).
Qed.

Lemma has_char_rstrip (c : ascii) (s : string) :
  has_char c (rstrip s) = true → has_char c s = true.
Proof.
  induction s as [|x s IH]; simpl; [done|].
  destruct (rstrip s) as [|y r] eqn:Hr.
  - destruct (is_space x); simpl; [done|].
    destruct (Ascii.eqb x c); [done|]. simpl. done.
  - simpl. destruct (Ascii.eqb x c); [done|]. simpl. apply IH.
Qed.

Lemma has_char_strip (c : ascii) (s : string) :
  has_char c s = false → has_char c (strip s) = false.
Proof.
  intros Hs. unfold strip.
  destruct (has_char c (rstrip (lstrip s))) eqn:H; [|done].
  apply has_char_rstrip, has_char_lstrip in H. congruence.
Qed.

Lemma split_not_nil (sep : ascii) (s : string) : split sep s ≠ [].
Proof.
  destruct s as [|x s]; simpl; [done|].
  destruct (Ascii.eqb x sep); [done|]. by destruct (split sep s).
Qed.

(** No piece of a split holds the separator, and a piece holds only
    characters of the string. *)
Lemma split_pieces (sep : ascii) (s w : string) :
  w ∈ split sep s →
  has_char sep w = false
  ∧ ∀ c, has_char c s = false → has_char c w = false.
Proof.
  revert w. induction s as [|x s IH]; intros w; simpl.
  - intros Hw. apply list_elem_of_singleton in Hw as ->. done.
  - destruct (Ascii.eqb x sep) eqn:Hx.
    + intros Hw. apply elem_of_cons in Hw as [->|Hw]; [done|].
      destruct (IH w Hw) as [H1 H2]. split; [done|].
      intros c Hc. apply orb_false_iff in Hc as [_ Hc]. by apply H2.
    + destruct (split sep s) as [|w0 ws] eqn:Hsplit.
      { by destruct (split_not_nil sep s). }
      intros Hw. apply elem_of_cons in Hw as [->|Hw].
      * destruct (IH w0) as [H1 H2]; [by left|]. simpl. rewrite Hx, H1.
        split; [done|]. intros c Hc.
        apply orb_false_iff in Hc as [Hxc Hc]. by rewrite Hxc, H2.
      * destruct (IH w) as [H1 H2]; [by right|]. split; [done|].
        intros c Hc. apply orb_false_iff in Hc as [_ Hc]. by apply H2.
Qed.

Lemma hd_split_elem (sep : ascii) (s : string) :
  hd EmptyString (split sep s) ∈ split sep s.
Proof.
  destruct (split sep s) as [|w ws] eqn:H; [by destruct (split_not_nil sep s)|].
  by left.
Qed.

(** *** Stripping twice *)

Lemma lstrip_length (s : string) :
  (String.length (lstrip s) ≤ String.length s)%nat.
Proof.
  induction s as [|x s IH]; simpl; [done|].
  destruct (is_space x); simpl; lia.
Qed.

Lemma rstrip_length (s : string) :
  (String.length (rstrip s) ≤ String.length s)%nat.
Proof.
  induction s as [|x s IH]; simpl; [done|].
  destruct (rstrip s) as [|y r]; simpl in *.
  - destruct (is_space x); simpl; lia.
  - lia.
Qed.

Lemma lstrip_fixed (s : string) :
  lstrip s = s ↔ s = EmptyString ∨ ∃ c s', s = String c s' ∧ is_space c = false.
Proof.
  destruct s as [|x s]; simpl.
  - split; [by left|done].
  - destruct (is_space x) eqn:Hx.
    + split.
      * intros H. pose proof (lstrip_length s) as Hlen.
        rewrite H in Hlen. simpl in Hlen. lia.
      * intros [?|(c & s' & [= -> ->] & Hc)]; [done|congruence].
    + split; [|done]. intros _. right. eauto.
Qed.

Lemma rstrip_rstrip (s : string) : rstrip (rstrip s) = rstrip s.
Proof.
  induction s as [|x s IH]; simpl; [done|].
  destruct (rstrip s) as [|y r] eqn:Hr.
  - destruct (is_space x) eqn:Hx; simpl; [done|]. by rewrite Hx.
  - cbn [rstrip] in *. rewrite IH. done.
Qed.

Lemma lstrip_rstrip (t : string) :
  lstrip t = t → lstrip (rstrip t) = rstrip t.
Proof.
  intros Ht. apply lstrip_fixed in Ht as [->|(c & t' & -> & Hc)]; [done|].
  cbn [rstrip]. destruct (rstrip t'); rewrite ?Hc; cbn [lstrip];
    by rewrite Hc.
Qed.

Lemma lstrip_lstrip (s : string) : lstrip (lstrip s) = lstrip s.
Proof.
  induction s as [|x s IH]; simpl; [done|].
  destruct (is_space x) eqn:Hx; [done|]. simpl. by rewrite Hx.
Qed.

Lemma strip_strip (s : string) : strip (strip s) = strip s.
Proof.
  unfold strip. rewrite (lstrip_rstrip (lstrip s)) by apply lstrip_lstrip.
  apply rstrip_rstrip.
Qed.

Lemma string_eqb_empty (s : string) :
  negb (String.eqb s EmptyString) = true ↔ s ≠ EmptyString.
Proof.
  rewrite negb_true_iff. split.
  - intros H ->. by rewrite String.eqb_refl in H.
  - intros H. by apply String.eqb_neq.
Qed.

(** *** What the parser returns *)

Lemma parse_lines_invariant (P : string → Prop) (lines : list string)
    (packages : gset string) :
  (∀ line, line ∈ lines → has_char tab line = true →
           strip (hd EmptyString (split tab line)) ≠ EmptyString →
           P (strip (hd EmptyString (split tab line)))) →
  (∀ n, n ∈ packages → P n) →
  ∀ n, n ∈ foldl parse_line packages lines → P n.
Proof.
  revert packages. induction lines as [|line lines IH];
    intros packages Hline Hpackages; [done|].
  simpl. apply IH.
  - intros l Hl. apply Hline. by right.
  - intros n. unfold parse_line.
    destruct (has_char tab line) eqn:Htab; [|apply Hpackages].
    destruct (negb (String.eqb _ EmptyString)) eqn:Hne; [|apply Hpackages].
    apply string_eqb_empty in Hne.
    intros Hn. apply elem_of_union in Hn as [Hn|Hn]; [|by apply Hpackages].
    apply elem_of_singleton in Hn as ->. apply Hline; [by left|done|done].
Qed.

(** X15.  Every name [parse_package_list] returns is usable as a
    package name: it is not empty, has no white space at either end,
    and holds neither a tab nor a line break. *)
Theorem parsed_names_are_clean (package_text n : string) :
  n ∈ parse_package_list package_text → clean_name n.
Proof.
  unfold parse_package_list.
  apply parse_lines_invariant; [|intros m Hm; by apply not_elem_of_empty in Hm].
  intros line Hline _ Hne.
  assert (line ∈ split newline (strip package_text)) as Hin.
  { destruct (split newline (strip package_text)); [done|]. by right. }
  destruct (split_pieces newline _ _ Hin) as [Hnl _].
  destruct (split_pieces tab line _ (hd_split_elem tab line)) as [Htab Hsub].
  split; [done|]. split; [apply strip_strip|]. split.
  - by apply has_char_strip.
  - apply has_char_strip. by apply Hsub.
Qed.

Lemma parsed_names_are_clean_witness : clean_name "ngx-color".
Proof.
  apply (parsed_names_are_clean
           (render_package_list ("Package" +:+ String tab "Versions")
              [("ngx-color", "10.0.1")])).
  by vm_compute.
Defined.

Lemma parse_lines_without_tab (lines : list string) (packages : gset string) :
  Forall (λ line, has_char tab line = false) lines →
  foldl parse_line packages lines = packages.
Proof.
  revert packages. induction lines as [|line lines IH]; intros packages Hl;
    [done|].
  apply Forall_cons in Hl as [Hline Hl]. simpl.
  unfold parse_line at 2. rewrite Hline. by apply IH.
Qed.

(** X16.  The first line is a header and never read as a package, and
    a line without a tab is ignored: a text without any tab, and a
    text that is one line once stripped, give the empty set. *)
Theorem text_without_entries_parses_to_nothing (package_text : string) :
  has_char tab package_text = false
  ∨ has_char newline (strip package_text) = false →
  parse_package_list package_text = ∅.
Proof.
  unfold parse_package_list. intros [Htab|Hnl].
  - apply parse_lines_without_tab. apply Forall_forall. intros line Hline.
    assert (line ∈ split newline (strip package_text)) as Hin.
    { destruct (split newline (strip package_text)); [done|]. by right. }
    destruct (split_pieces newline _ _ Hin) as [_ Hsub].
    apply Hsub. by apply has_char_strip.
  - assert (∀ s, has_char newline s = false → split newline s = [s]) as Hone.
    { induction s as [|x s IH]; simpl; [done|].
      intros H. apply orb_false_iff in H as [Hx Hs].
      rewrite Hx. by rewrite IH. }
    by rewrite Hone.
Qed.

Lemma text_without_entries_parses_to_nothing_witness :
  parse_package_list "Package Versions" = ∅.
Proof.
  apply text_without_entries_parses_to_nothing. left. reflexivity.
Defined.

(** *** Rendering and parsing *)

Lemma split_no_sep (sep : ascii) (s : string) :
  has_char sep s = false → split sep s = [s].
Proof.
  induction s as [|x s IH]; simpl; [done|].
  intros H. apply orb_false_iff in H as [Hx Hs]. rewrite Hx. by rewrite IH.
Qed.

Lemma split_app_sep (sep : ascii) (a b : string) :
  has_char sep a = false →
  split sep (a +:+ String sep b) = a :: split sep b.
Proof.
  induction a as [|x a IH]; simpl.
  - intros _. by rewrite Ascii.eqb_refl.
  - intros H. apply orb_false_iff in H as [Hx Ha]. rewrite Hx.
    by rewrite IH.
Qed.

Lemma join_lines_cons (l l' : string) (lines : list string) :
  join_lines (l :: l' :: lines)
  = l +:+ String newline (join_lines (l' :: lines)).
Proof. reflexivity. Qed.

Lemma split_join_lines (lines : list string) :
  lines ≠ [] →
  Forall (λ l, has_char newline l = false) lines →
  split newline (join_lines lines) = lines.
Proof.
  induction lines as [|l lines IH]; [done|]. intros _ Hl.
  apply Forall_cons in Hl as [Hl Hls].
  destruct lines as [|l' lines].
  - simpl. by apply split_no_sep.
  - rewrite join_lines_cons, split_app_sep by done. by rewrite IH.
Qed.

Lemma rstrip_app_keep (a b : string) :
  rstrip b = b → b ≠ EmptyString → rstrip (a +:+ b) = a +:+ b.
Proof.
  intros Hb Hne. induction a as [|x a IH]; [exact Hb|].
  assert (a +:+ b ≠ EmptyString) as Hnz.
  { destruct a; simpl; [done|discriminate]. }
  change (String x a +:+ b) with (String x (a +:+ b)).
  change (rstrip (String x (a +:+ b)))
    with (match rstrip (a +:+ b) with
          | EmptyString =>
              if is_space x then EmptyString else String x EmptyString
          | r => String x r
          end).
  rewrite IH. by destruct (a +:+ b).
Qed.

Lemma rstrip_cons_keep (x : ascii) (b : string) :
  rstrip b = b → b ≠ EmptyString → rstrip (String x b) = String x b.
Proof. intros Hb Hne. apply (rstrip_app_keep (String x EmptyString) b Hb Hne). Qed.

Lemma rstrip_join_lines (lines : list string) (l : string) :
  last lines = Some l → rstrip l = l → l ≠ EmptyString →
  rstrip (join_lines lines) = join_lines lines
  ∧ join_lines lines ≠ EmptyString.
Proof.
  intros Hlast Hl Hne. induction lines as [|l0 lines IH]; [done|].
  destruct lines as [|l1 lines].
  - simpl in *. by injection Hlast as ->.
  - destruct IH as [IH1 IH2]; [done|].
    rewrite join_lines_cons. split.
    + apply rstrip_app_keep; [by apply rstrip_cons_keep | done].
    + by destruct l0.
Qed.

Lemma strip_fixed_ends (n : string) :
  strip n = n → lstrip n = n ∧ rstrip n = n.
Proof.
  intros Hn. unfold strip in Hn.
  assert (lstrip n = n) as Hl.
  { destruct n as [|x n]; [done|]. simpl in *.
    destruct (is_space x); [|done].
    pose proof (rstrip_length (lstrip n)) as H1.
    pose proof (lstrip_length n) as H2.
    rewrite Hn in H1. simpl in H1. lia. }
  split; [done|]. by rewrite Hl in Hn.
Qed.

Lemma last_map {A B} (f : A → B) (l : list A) :
  last (map f l) = f <$> last l.
Proof.
  induction l as [|x l IH]; [done|].
  cbn [map]. rewrite !last_cons, IH. by destruct (last l).
Qed.

Lemma parse_line_entry (packages : gset string) (n v : string) :
  clean_name n →
  parse_line packages (n +:+ String tab v) = {[n]} ∪ packages.
Proof.
  intros (Hne & Hstrip & Htab & _). unfold parse_line.
  assert (has_char tab (n +:+ String tab v) = true) as ->.
  { rewrite has_char_app. apply orb_true_iff. right. reflexivity. }
  rewrite split_app_sep by done. cbn [hd]. rewrite Hstrip.
  by rewrite (proj2 (string_eqb_empty n) Hne).
Qed.

Lemma parse_lines_entries (entries : list (string * string))
    (packages : gset string) :
  Forall (λ e, clean_name e.1) entries →
  foldl parse_line packages (map (λ e, e.1 +:+ String tab e.2) entries)
  = list_to_set entries.*1 ∪ packages.
Proof.
  revert packages. induction entries as [|[n v] entries IH];
    intros packages Hclean; simpl.
  - by rewrite (left_id_L ∅ (∪)).
  - apply Forall_cons in Hclean as [Hn Hclean]. simpl in Hn.
    rewrite parse_line_entry by done. rewrite IH by done.
    rewrite (assoc_L (∪)). f_equal. apply (comm_L (∪)).
Qed.

(** X17.  Parsing gives back the names of a rendered list.  Take a
    header line that begins with a visible character, and entries each
    a clean name, a tab and a version text, all without line breaks,
    the last version not empty and without white space at its end;
    join them with line breaks: [parse_package_list] returns exactly
    the set of the names. *)
Theorem parse_renders_back
    (header : string) (entries : list (string * string)) :
  header ≠ EmptyString →
  lstrip header = header →
  has_char newline header = false →
  Forall (λ e, clean_name e.1 ∧ has_char newline e.2 = false) entries →
  (∀ e, last entries = Some e → e.2 ≠ EmptyString ∧ rstrip e.2 = e.2) →
  parse_package_list (render_package_list header entries)
  = list_to_set entries.*1.
Proof.
  intros Hne Hl Hnl Hentries Hlast.
  unfold parse_package_list, render_package_list.
  destruct (decide (entries = [])) as [->|Hnonempty].
  { simpl. rewrite split_no_sep by (by apply has_char_strip). done. }
  set (lines := map (λ e, e.1 +:+ String tab e.2) entries).
  assert (Forall (λ l, has_char newline l = false) (header :: lines))
    as Hlines.
  { apply Forall_cons. split; [done|]. apply Forall_fmap.
    eapply Forall_impl; [exact Hentries|]. intros [n v] [(_&_&_&Hn) Hv].
    simpl in *. rewrite has_char_app. simpl. by rewrite Hn, Hv. }
  assert (strip (join_lines (header :: lines)) = join_lines (header :: lines))
    as ->.
  { unfold strip.
    assert (lstrip (join_lines (header :: lines))
            = join_lines (header :: lines)) as ->.
    { apply lstrip_fixed in Hl as [->|(c & h' & -> & Hc)]; [done|].
      apply lstrip_fixed. right.
      destruct lines; [simpl; eauto|].
      rewrite join_lines_cons. simpl. eauto. }
    destruct (last entries) as [[n v]|] eqn:Hle.
    2: { by apply last_None in Hle. }
    destruct (Hlast (n, v) eq_refl) as [Hv1 Hv2]. simpl in Hv1, Hv2.
    eapply proj1, (rstrip_join_lines (header :: lines) (n +:+ String tab v)).
    - unfold lines. rewrite last_cons, last_map, Hle. done.
    - apply rstrip_app_keep; [by apply rstrip_cons_keep | done].
    - by destruct n. }
  rewrite split_join_lines by done. simpl.
  unfold lines. rewrite parse_lines_entries.
  - by rewrite (right_id_L ∅ (∪)).
  - eapply Forall_impl; [exact Hentries|]. by intros e [? _].
Qed.

Lemma parse_renders_back_witness :
  parse_package_list
    (render_package_list ("Package" +:+ String tab "Versions")
       [("@ctrl/tinycolor", "4.1.1, 4.1.2"); ("ngx-color", "10.0.1")])
  = list_to_set [("@ctrl/tinycolor", "4.1.1, 4.1.2"); ("ngx-color", "10.0.1")].*1.
Proof.
  apply parse_renders_back.
  - discriminate.
  - reflexivity.
  - reflexivity.
  - repeat (apply Forall_cons_2 || apply Forall_nil_2);
      (split; [|reflexivity]); (split; [discriminate|]); repeat split.
  - intros e [= <-]. split; [discriminate|reflexivity].
Defined.

Lemma rstrip_snoc_space (a : string) (c : ascii) :
  is_space c = true → rstrip (a +:+ String c EmptyString) = rstrip a.
Proof.
  intros Hc. induction a as [|x a IH].
  - simpl. by rewrite Hc.
  - change (String x a +:+ String c EmptyString)
      with (String x (a +:+ String c EmptyString)).
    change (rstrip (String x (a +:+ String c EmptyString)))
      with (match rstrip (a +:+ String c EmptyString) with
            | EmptyString =>
                if is_space x then EmptyString else String x EmptyString
            | r => String x r
            end).
    by rewrite IH.
Qed.

Lemma string_append_assoc (a b c : string) :
  (a +:+ b) +:+ c = a +:+ (b +:+ c).
Proof.
  induction a as [|x a IH]; [done|].
  change (String x ((a +:+ b) +:+ c) = String x (a +:+ (b +:+ c))).
  by f_equal.
Qed.

Lemma join_lines_cons_ne (l : string) (lines : list string) :
  lines ≠ [] →
  join_lines (l :: lines) = l +:+ String newline (join_lines lines).
Proof. by destruct lines. Qed.

Lemma join_lines_snoc_app (lines : list string) (l s : string) :
  join_lines (lines ++ [l +:+ s]) = join_lines (lines ++ [l]) +:+ s.
Proof.
  induction lines as [|l0 lines IH]; [done|].
  rewrite <- !app_comm_cons.
  rewrite !join_lines_cons_ne by (by destruct lines).
  rewrite IH. by rewrite string_append_assoc.
Qed.

Lemma lstrip_app_keep (a b : string) :
  lstrip a = a → a ≠ EmptyString → lstrip (a +:+ b) = a +:+ b.
Proof.
  intros Ha Hne. apply lstrip_fixed in Ha as [->|(c & a' & -> & Hc)]; [done|].
  change (String c a' +:+ b) with (String c (a' +:+ b)).
  apply lstrip_fixed. right. eauto.
Qed.

(** X18.  An entry on the last line whose versions column is empty is
    lost: [strip] takes the tab at the end of the text away with the
    white space, the line is left without a tab and is ignored.  The
    entries before it are returned as usual. *)
Theorem last_entry_without_versions_is_dropped
    (header : string) (entries : list (string * string)) (n : string) :
  header ≠ EmptyString →
  lstrip header = header →
  has_char newline header = false →
  Forall (λ e, clean_name e.1 ∧ has_char newline e.2 = false) entries →
  clean_name n →
  parse_package_list
    (render_package_list header (entries ++ [(n, EmptyString)])%list)
  = list_to_set entries.*1.
Proof.
  intros Hne Hl Hnl Hentries Hn.
  unfold parse_package_list, render_package_list.
  set (lines := map (λ e, e.1 +:+ String tab e.2) entries).
  assert (header :: map (λ e, e.1 +:+ String tab e.2)
                        (entries ++ [(n, EmptyString)])%list
          = ((header :: lines) ++ [n +:+ String tab EmptyString])%list) as ->.
  { unfold lines. by rewrite map_app. }
  rewrite join_lines_snoc_app.
  destruct Hn as (Hn1 & Hn2 & Hn3 & Hn4).
  destruct (strip_fixed_ends n Hn2) as [_ Hnr].
  assert (Forall (λ l, has_char newline l = false) ((header :: lines) ++ [n])%list)
    as Hlines.
  { apply Forall_app. split; [|by apply Forall_singleton].
    apply Forall_cons. split; [done|]. apply Forall_fmap.
    eapply Forall_impl; [exact Hentries|]. intros [m v] [(_&_&_&Hm) Hv].
    simpl in *. rewrite has_char_app.
    change (has_char newline (String tab v)) with (has_char newline v).
    by rewrite Hm, Hv. }
  assert (strip (join_lines ((header :: lines) ++ [n])%list
                 +:+ String tab EmptyString)
          = join_lines ((header :: lines) ++ [n])%list) as ->.
  { unfold strip.
    assert (lstrip (join_lines ((header :: lines) ++ [n])%list
                    +:+ String tab EmptyString)
            = join_lines ((header :: lines) ++ [n])%list
              +:+ String tab EmptyString) as ->.
    { rewrite <- app_comm_cons.
      rewrite join_lines_cons_ne by (by destruct lines).
      rewrite string_append_assoc. by apply lstrip_app_keep. }
    rewrite rstrip_snoc_space by reflexivity.
    eapply proj1, (rstrip_join_lines _ n); [|done|done].
    by rewrite last_snoc. }
  rewrite split_join_lines; [|by destruct lines|done].
  rewrite <- app_comm_cons. cbn [tail].
  rewrite foldl_app. cbn [foldl]. unfold parse_line at 1. rewrite Hn3.
  unfold lines. rewrite parse_lines_entries.
  - by rewrite (right_id_L ∅ (∪)).
  - eapply Forall_impl; [exact Hentries|]. by intros e [? _].
Qed.

Lemma last_entry_without_versions_is_dropped_witness :
  parse_package_list
    (render_package_list ("Package" +:+ String tab "Versions")
       ([("ngx-color", "10.0.1")] ++ [("left-pad", EmptyString)])%list)
  = list_to_set [("ngx-color", "10.0.1")].*1.
Proof.
  apply last_entry_without_versions_is_dropped.
  - discriminate.
  - reflexivity.
  - reflexivity.
  - repeat (apply Forall_cons_2 || apply Forall_nil_2);
      (split; [|reflexivity]); (split; [discriminate|]); repeat split.
  - split; [discriminate|]. repeat split.
Defined.

(** ** The search paths *)

Example get_search_paths_example :
  get_search_paths
    (Dir true [("home", Dir true [("u", Dir true
       [("Documents", Dir true []); (".npm-global", Dir true []);
        ("code", File Malformed)])])])
    ["home"; "u"] OtherPosix
  = [["home"; "u"]; ["home"; "u"; "Documents"];
     ["home"; "u"; ".npm-global"]].
Proof. by vm_compute. Qed.

Lemma foldl_append_if {A} (f : A → bool) (xs init : list A) :
  foldl (λ (paths : list A) x, if f x then (paths ++ [x])%list else paths)
        init xs
  = (init ++ filter (λ x, f x = true) xs)%list.
Proof.
  revert init. induction xs as [|x xs IH]; intros init; simpl.
  - by rewrite app_nil_r.
  - rewrite IH. destruct (f x) eqn:Hx.
    + rewrite filter_cons_True by done. by rewrite <- app_assoc.
    + rewrite filter_cons_False by congruence. done.
Qed.

Lemma foldl_append_some {A} (f : A → bool) (xs : list (option A))
    (init : list A) :
  foldl (λ (paths : list A) o,
           match o with
           | Some x => if f x then (paths ++ [x])%list else paths
           | None => paths
           end) init xs
  = (init ++ filter (λ x, f x = true) (omap id xs))%list.
Proof.
  revert init. induction xs as [|[x|] xs IH]; intros init; simpl.
  - by rewrite app_nil_r.
  - rewrite IH. destruct (f x) eqn:Hx.
    + rewrite filter_cons_True by done. by rewrite <- app_assoc.
    + rewrite filter_cons_False by congruence. done.
  - apply IH.
Qed.

Lemma get_search_paths_unfold (fs : node) (home : path) (pf : platform) :
  get_search_paths fs home pf
  = filter (λ p, path_exists fs p = true)
      ([home]
       ++ filter (λ d, path_exists fs d && is_dir fs d = true)
            (common_dev_dirs home)
       ++ filter (λ p, path_exists fs p = true)
            (omap id (global_npm_paths home pf)))%list.
Proof.
  unfold get_search_paths.
  rewrite (foldl_append_if (λ d, path_exists fs d && is_dir fs d)).
  rewrite (foldl_append_some (path_exists fs)).
  by rewrite <- app_assoc.
Qed.

Lemma path_exists_parent (fs : node) (p : path) (c : string) :
  path_exists fs (p // c) = true → path_exists fs p = true.
Proof.
  rewrite !path_exists_lookup, lookup_node_joinpath.
  destruct (lookup_node fs p); [eauto|]. by intros [? ?].
Qed.

(** X19.  [get_search_paths] returns only paths that exist; a path is
    returned exactly when it exists and is the home directory, one of
    the seven development directories and a directory, or one of the
    global package locations of the platform; and the home directory,
    when it exists, comes first. *)
Theorem search_paths_exist
    (fs : node) (home : path) (pf : platform) :
  (∀ p, p ∈ get_search_paths fs home pf ↔
        path_exists fs p = true
        ∧ (p = home
           ∨ (p ∈ common_dev_dirs home ∧ is_dir fs p = true)
           ∨ Some p ∈ global_npm_paths home pf))
  ∧ (path_exists fs home = true →
     head (get_search_paths fs home pf) = Some home).
Proof.
  rewrite get_search_paths_unfold. split.
  - intros p. rewrite list_elem_of_filter, !elem_of_app, !list_elem_of_filter.
    rewrite list_elem_of_singleton, list_elem_of_omap, andb_true_iff.
    split.
    + intros [He [->|[[[_ Hd] Hin]|[_ (o & Ho & Hid)]]]]; split; try done.
      * by left.
      * right. left. done.
      * right. right. simpl in Hid. by subst o.
    + intros [He [->|[[Hin Hd]|Hin]]]; split; try done.
      * by left.
      * right. left. done.
      * right. right. split; [done|]. by exists (Some p).
  - intros Hhome. simpl. by rewrite filter_cons_True by done.
Qed.

(** X20.  The search paths overlap: whenever the result holds a
    directory directly below the home directory (a development
    directory, [.npm], [.npm-global]), it holds the home directory as
    well, so both are walked as roots. *)
Theorem search_paths_below_home_come_with_home
    (fs : node) (home : path) (pf : platform) (d : string) :
  home // d ∈ get_search_paths fs home pf →
  home ∈ get_search_paths fs home pf.
Proof.
  rewrite get_search_paths_unfold, !list_elem_of_filter.
  intros [He _]. split; [by eapply path_exists_parent|].
  apply elem_of_app. left. by apply list_elem_of_singleton.
Qed.

Lemma search_paths_below_home_come_with_home_witness :
  ["home"; "u"]
  ∈ get_search_paths
      (Dir true [("home", Dir true [("u", Dir true
         [("Documents", Dir true [])])])])
      ["home"; "u"] OtherPosix.
Proof.
  apply (search_paths_below_home_come_with_home _ _ _ "Documents").
  apply (bool_decide_unpack _). by vm_compute.
Defined.

(** X21.  [.npm-global] is searched in vain.  On macOS and the other
    POSIX platforms [get_search_paths] returns [~/.npm-global] whenever
    it exists, but the name is dotted and not on the allow-list, so
    the walk skips it as a root: scanning it gives no results and
    visits nothing, on every file system. *)
Theorem npm_global_root_is_skipped
    (fs : node) (target_packages : gset string) (home : path)
    (scanned : gset path) :
  (path_exists fs (home // ".npm-global") = true →
   home // ".npm-global" ∈ get_search_paths fs home Darwin
   ∧ home // ".npm-global" ∈ get_search_paths fs home OtherPosix)
  ∧ scan_directory_worker fs target_packages (home // ".npm-global") scanned
    = WorkerState ∅ ∅ scanned.
Proof.
  split.
  - intros He. rewrite !get_search_paths_unfold, !list_elem_of_filter.
    split; (split; [done|]); rewrite !elem_of_app; right; right;
      apply list_elem_of_filter; (split; [done|]); simpl;
      do 3 right; by left.
  - unfold scan_directory_worker.
    destruct (lookup_node fs (home // ".npm-global")) as [[c|[] es]|];
      try done.
    rewrite walk_unfold. unfold bind. rewrite visit_unfold.
    unfold should_skip_directory. rewrite name_joinpath. done.
Qed.

(** ** What a walk finds *)

Lemma grows_refl (st : worker_state) : grows st st.
Proof. done. Qed.

Lemma grows_trans (st1 st2 st3 : worker_state) :
  grows st1 st2 → grows st2 st3 → grows st1 st3.
Proof.
  intros (H1 & H2 & H3) (H1' & H2' & H3').
  split; [|split]; etrans; done.
Qed.

Lemma covered_grows (fs : node) (T : gset string) q st st' :
  grows st st' → covered fs T q st → covered fs T q st'.
Proof.
  intros (Hs & Hi & Hd) (Hq & Hstore & Hman). split; [by apply Hs|]. split.
  - intros Hname found Hrun. etrans; [by apply Hstore|done].
  - intros Hname Hfile found Hrun. etrans; [by apply Hman|done].
Qed.

Lemma visit_grows (fs : node) (T : gset string) top files st :
  grows st (visit fs T top files st).1.
Proof.
  rewrite visit_unfold.
  destruct (should_skip_directory fs top); [done|].
  destruct (bool_decide (top ∈ scanned_dirs st)); [done|].
  assert (grows st (add_scanned top st)) as Hadd.
  { split; [|done]. simpl. apply union_subseteq_r. }
  destruct (bool_decide (name top = "node_modules")).
  - destruct (scan_node_modules fs T top); [|done].
    eapply grows_trans; [exact Hadd|]. split; [done|]. split; [|done].
    simpl. rewrite dom_update. apply union_subseteq_r.
  - destruct (bool_decide ("package.json" ∈ files)); [|done].
    destruct (scan_package_json fs T (top // "package.json")); [|done].
    eapply grows_trans; [exact Hadd|]. split; [done|]. split; [done|].
    simpl. rewrite dom_update. apply union_subseteq_r.
Qed.

Lemma walk_grows (fs : node) (T : gset string) (n : node) top st :
  grows st (walk fs T top n st).1.
Proof.
  apply (walk_invariant fs T (grows st) (λ _, True)); try done.
  intros top' files st' _ Hst'. eapply grows_trans; [done|].
  apply visit_grows.
Qed.

Lemma walk_dirs_grows (fs : node) (T : gset string) top es st :
  grows st (walk_dirs fs T top es st).1.
Proof.
  revert st. induction es as [|[d child] es IH]; intros st; [done|].
  simpl. unfold bind.
  assert (grows st ((if is_dir_node child then walk fs T (top // d) child
                     else ret tt) st).1) as Hchild.
  { destruct (is_dir_node child); [apply walk_grows | done]. }
  destruct ((if is_dir_node child then walk fs T (top // d) child
             else ret tt) st) as [st1 [[]|e]]; [|done].
  eapply grows_trans; [exact Hchild | apply IH].
Qed.

Lemma walk_dirs_adds_below (fs : node) (T : gset string) top es st q :
  q ∈ scanned_dirs (walk_dirs fs T top es st).1 →
  q ∈ scanned_dirs st ∨ ∃ d, d ∈ es.*1 ∧ top // d `prefix_of` q.
Proof.
  revert st. induction es as [|[d child] es IH]; intros st; [by left|].
  simpl. unfold bind.
  assert (∀ q, q ∈ scanned_dirs
                     ((if is_dir_node child then walk fs T (top // d) child
                       else ret tt) st).1 →
               q ∈ scanned_dirs st ∨ top // d `prefix_of` q) as Hchild.
  { intros q'. destruct (is_dir_node child); [|by left].
    apply walk_adds_below. }
  destruct ((if is_dir_node child then walk fs T (top // d) child
             else ret tt) st) as [st1 [[]|e]]; simpl in Hchild.
  - intros Hq. apply IH in Hq as [Hq|(d' & Hd' & Hpre)].
    + apply Hchild in Hq as [Hq|Hq]; [by left|].
      right. exists d. split; [by left|done].
    + right. exists d'. split; [by right|done].
  - simpl. intros Hq. apply Hchild in Hq as [Hq|Hq]; [by left|].
    right. exists d. split; [by left|done].
Qed.

(** The first entry of a name. *)
Lemma assoc_split (d : string) (es : list (string * node)) (n : node) :
  assoc d es = Some n →
  ∃ es1 es2, es = (es1 ++ (d, n) :: es2)%list ∧ d ∉ es1.*1.
Proof.
  induction es as [|[d' n'] es IH]; [done|]. simpl.
  destruct (decide (d = d')) as [<-|Hne].
  - intros [= <-]. exists [], es. split; [done|]. apply not_elem_of_nil.
  - intros H. destruct (IH H) as (es1 & es2 & -> & Hd).
    exists ((d', n') :: es1), es2. split; [done|].
    simpl. apply not_elem_of_cons. done.
Qed.

Lemma nondirs_package_json (fs : node) (top : path) es c :
  lookup_node fs top = Some (Dir true es) →
  lookup_node fs (top // "package.json") = Some (File c) →
  "package.json" ∈ nondirs es.
Proof.
  intros Htop. rewrite lookup_node_joinpath, Htop. intros Ha.
  apply assoc_split in Ha as (es1 & es2 & -> & _).
  unfold nondirs. apply list_elem_of_fmap. exists ("package.json", File c).
  split; [done|]. apply list_elem_of_filter. split; [done|].
  apply elem_of_app. right. by left.
Qed.

Lemma walk_dirs_cons (fs : node) (T : gset string) top d child es st :
  walk_dirs fs T top ((d, child) :: es) st
  = match (if is_dir_node child then walk fs T (top // d) child
           else ret tt) st with
    | (st1, Ok _) => walk_dirs fs T top es st1
    | (st1, Raise e) => (st1, Raise e)
    end.
Proof. reflexivity. Qed.

Lemma reach_start (fs : node) (top q : path) :
  reach fs top q → ∃ es, lookup_node fs top = Some (Dir true es).
Proof. intros [top' es ? ?|top' es d q' ? ? ? ? ?]; eauto. Qed.

(** A directory processed for the first time, without a raise: its
    scan is in the state, and its subdirectories stay open exactly when
    it is a plain directory with at most 10 parts. *)
Lemma visit_covers (fs : node) (T : gset string) top es st st1 keep :
  lookup_node fs top = Some (Dir true es) →
  should_skip_directory fs top = false →
  top ∉ scanned_dirs st →
  visit fs T top (nondirs es) st = (st1, Ok keep) →
  covered fs T top st1
  ∧ (name top ≠ "node_modules" → (length (parts top) ≤ 10)%nat →
     keep = true).
Proof.
  intros Hl Hskip Hnew. rewrite visit_unfold, Hskip.
  rewrite (bool_decide_eq_false_2 _ Hnew).
  destruct (bool_decide (name top = "node_modules")) eqn:Hname.
  - apply bool_decide_eq_true in Hname.
    destruct (scan_node_modules fs T top) as [found'|e] eqn:Hrun; [|done].
    intros [= <- <-]. split; [|done]. split; [|split]; [| |done].
    + simpl. apply elem_of_union. left. by apply elem_of_singleton.
    + intros _ found Hf. rewrite Hrun in Hf. injection Hf as <-.
      simpl. rewrite dom_update. apply union_subseteq_l.
  - apply bool_decide_eq_false in Hname.
    destruct (bool_decide ("package.json" ∈ nondirs es)) eqn:Hfiles.
    + destruct (scan_package_json fs T (top // "package.json"))
        as [found'|e] eqn:Hrun; [|done].
      intros [= <- <-]. split.
      * split; [|split]; [|done|].
        -- simpl. apply elem_of_union. left. by apply elem_of_singleton.
        -- intros _ _ found Hf. rewrite Hrun in Hf. injection Hf as <-.
           simpl. rewrite dom_update. apply union_subseteq_l.
      * intros _ Hshallow. apply negb_true_iff, bool_decide_eq_false.
        unfold parts in *. simpl in *. lia.
    + apply bool_decide_eq_false in Hfiles.
      intros [= <- <-]. split.
      * split; [|split]; [|done|].
        -- simpl. apply elem_of_union. left. by apply elem_of_singleton.
        -- intros _ [c Hc]. destruct Hfiles.
           by eapply nondirs_package_json.
      * intros _ Hshallow. apply negb_true_iff, bool_decide_eq_false.
        unfold parts in *. simpl in *. lia.
Qed.

Lemma walk_covers (fs : node) (T : gset string) (n : node) :
  ∀ top st st' q,
    lookup_node fs top = Some n →
    fresh ∅ top st →
    walk fs T top n st = (st', Ok tt) →
    reach fs top q →
    covered fs T q st'.
Proof.
  induction n as [c|r es IH] using node_tree_ind;
    intros top st st' q Hl Hfresh Hwalk Hreach.
  { apply reach_start in Hreach as [es Hes]. congruence. }
  assert (r = true ∧ should_skip_directory fs top = false) as [-> Hskip].
  { inversion Hreach as [top' es' Hl' Hs'|top' es' d q' Hl' Hs' _ _ _]; subst;
      rewrite Hl in Hl'; by injection Hl' as -> _. }
  assert (top ∉ scanned_dirs st) as Hnew.
  { intros Hin. by apply (not_elem_of_empty (C := gset path) top), Hfresh. }
  rewrite walk_unfold in Hwalk. unfold bind in Hwalk.
  destruct (visit fs T top (nondirs es) st) as [st1 [keep|e]] eqn:Hv; [|done].
  destruct (visit_covers fs T top es st st1 keep Hl Hskip Hnew Hv)
    as [Hcov Hkeep].
  assert (∀ x, x ∈ scanned_dirs st1 → x ∈ scanned_dirs st ∨ x = top) as Hst1.
  { intros x Hx.
    replace st1 with (visit fs T top (nondirs es) st).1 in Hx
      by (by rewrite Hv).
    by apply visit_scanned in Hx. }
  inversion Hreach as [top' es' Hl' Hs'|top' es' d q' Hl' Hs' Hname Hdepth Hq];
    subst.
  - (* the directory itself *)
    destruct keep.
    + eapply covered_grows; [|exact Hcov].
      replace st' with (walk_dirs fs T q es st1).1 by (by rewrite Hwalk).
      apply walk_dirs_grows.
    + by injection Hwalk as <-.
  - (* a directory below *)
    rewrite (Hkeep Hname Hdepth) in Hwalk.
    destruct (reach_start _ _ _ Hq) as [esd Hld].
    pose proof Hld as Hassoc.
    rewrite lookup_node_joinpath, Hl in Hassoc.
    apply assoc_split in Hassoc as (es1 & es2 & -> & Hd1).
    rewrite walk_dirs_app in Hwalk.
    destruct (walk_dirs fs T top es1 st1) as [sta [[]|e]] eqn:Ha; [|done].
    rewrite walk_dirs_cons in Hwalk. cbn [is_dir_node] in Hwalk.
    destruct (walk fs T (top // d) (Dir true esd) sta) as [stb [[]|e]] eqn:Hb;
      [|done].
    apply Forall_app in IH as [_ IH].
    apply Forall_cons in IH as [IHchild _]. simpl in IHchild.
    eapply covered_grows.
    2: { eapply (IHchild (top // d) sta stb q); [done| |done|done].
         intros x Hx Hpre. exfalso.
         replace sta with (walk_dirs fs T top es1 st1).1 in Hx
           by (by rewrite Ha).
         apply walk_dirs_adds_below in Hx as [Hx|(d' & Hd' & Hpre')].
         - apply Hst1 in Hx as [Hx| ->].
           + apply (not_elem_of_empty (C := gset path) x), Hfresh; [done|].
             by eapply prefix_of_joinpath.
           + by apply joinpath_not_prefix in Hpre.
         - apply Hd1. by rewrite (joinpath_prefix_inj top x d d' Hpre Hpre'). }
    replace st' with (walk_dirs fs T top es2 stb).1 by (by rewrite Hwalk).
    apply walk_dirs_grows.
Qed.

(** X22.  What the first walk reaches, it finds.  When the walk of the
    root raises nothing, every directory reached from the root through
    open directories is visited; every key a store so reached yields
    is a key of the worker's installed packages, and every key the
    manifest of a plain directory so reached yields is a key of its
    dependency references. *)
Theorem first_walk_finds_what_it_reaches
    (fs : node) (target_packages : gset string) (root : path) (n : node)
    (q : path) :
  lookup_node fs root = Some n →
  (walk fs target_packages root n (WorkerState ∅ ∅ ∅)).2 = Ok tt →
  reach fs root q →
  covered fs target_packages q
    (scan_directory_worker fs target_packages root ∅).
Proof.
  intros Hl Hok Hreach. unfold scan_directory_worker. rewrite Hl.
  destruct (walk fs target_packages root n (WorkerState ∅ ∅ ∅))
    as [st' r] eqn:Hwalk. simpl in Hok. subst r. simpl.
  eapply walk_covers; [exact Hl| |exact Hwalk|exact Hreach].
  intros x Hx _. exact Hx.
Qed.

Lemma first_walk_finds_what_it_reaches_witness :
  covered fs_store {["left-pad"]} ["app"; "node_modules"]
    (scan_directory_worker fs_store {["left-pad"]} ["app"] ∅).
Proof.
  eapply (first_walk_finds_what_it_reaches fs_store {["left-pad"]} ["app"]).
  - reflexivity.
  - vm_compute. reflexivity.
  - eapply (reach_below fs_store ["app"] _ "node_modules").
    + reflexivity.
    + reflexivity.
    + discriminate.
    + simpl. lia.
    + eapply reach_here; reflexivity.
Defined.
